(** * The backtest engine: trade simulation and performance statistics

    A shallow embedding of [core/backtest_engine.py] (class [BacktestEngine])
    and of the position sizing of [strategies/base_strategy.py]
    (class [BaseStrategy]).

    Numbers.  Python floats are modelled as exact rationals ([Q]); tests
    such as [position == 0] or [profit > 0] become the boolean tests of
    [Q].  A division whose divisor is zero has no rational value: the
    model raises [ZeroDivisionError] there, which stands for whatever
    Python produces at that point (the exception for built-in numbers,
    [inf] or [nan] for numpy scalars): the model says nothing about a run
    past such a division.  Rounding, overflow and [nan] are outside the
    model, and a difference of two timestamps is taken in the integers,
    without the range of a [Timedelta].

    Frames.  [run_backtest] works on the frame [df] returned by
    [strategy.generate_signals(data)], to which it adds indicator columns
    (volatility, RSI, moving averages, ATR).  A frame is a list of rows in
    index order; a row carries its index (the timestamp), the price
    columns, the signal and the indicator columns.  The indicator values
    are only copied into the trades' metrics, so they are inputs of the
    model.  The Qt progress signal emitted by the loop is not part of the
    state the engine keeps and is left out. *)

From Stdlib Require Import QArith Qabs Qminmax Lia Lqa.
From stdpp Require Import base option list gmap strings.

Local Open Scope Q_scope.

(** ** Exceptions *)

Inductive exn : Type :=
| IndexError
| KeyError
| ZeroDivisionError.

Inductive result (A : Type) : Type :=
| Ok (a : A)
| Raise (e : exn).

Arguments Ok {A} a.
Arguments Raise {A} e.

Definition bind {A B : Type} (m : result A) (k : A -> result B) : result B :=
  match m with
  | Ok a => k a
  | Raise e => Raise e
  end.

Notation "'let*' x ':=' m 'in' k" := (bind m (fun x => k))
  (at level 10, x name, m at level 100, k at level 200, only parsing).

(** ** Numbers *)

(** [a > b] on numbers. *)
Definition Qgtb (a b : Q) : bool := negb (Qle_bool a b).

(** [a / b]. *)
Definition div (a b : Q) : result Q :=
  if Qeq_bool b 0 then Raise ZeroDivisionError else Ok (a / b).

(** The builtin [max(a, b)]: [b] when [b > a], otherwise [a]. *)
Definition py_max (a b : Q) : Q := if Qgtb b a then b else a.

(** The builtin [sum] over numbers, starting from [0]. *)
Definition py_sum (l : list Q) : Q := fold_left Qplus l 0.

(** The builtin [len], as a number. *)
Definition len {A : Type} (l : list A) : Q := inject_Z (Z.of_nat (length l)).

(** A number that may be [float('inf')]. *)
Inductive number : Type :=
| Finite (q : Q)
| inf.

(** ** Frames and trades *)

(** Timestamps count nanoseconds; [.days] of a difference of two
    timestamps is its number of whole days, rounded down. *)
Definition Timestamp : Type := Z.

Definition days (delta : Z) : Z := (delta / 86400000000000)%Z.

(** Indicator columns hold [NaN] until their window is full. *)
Record Row : Type := {
  index : Timestamp;
  Open : Q;
  High : Q;
  Low : Q;
  Close : Q;
  Volume : Q;
  Signal : Q;
  Volatility : option Q;
  RSI : option Q;
  SMA_20 : option Q;
  SMA_50 : option Q;
  ATR : option Q
}.

Record Metrics : Type := {
  volume : Q;
  volatility : option Q;
  rsi : option Q;
  sma_20 : option Q;
  sma_50 : option Q;
  atr : option Q;
  high : Q;
  low : Q;
  open : Q
}.

Definition metrics_of (row : Row) : Metrics :=
  {| volume := Volume row;
     volatility := Volatility row;
     rsi := RSI row;
     sma_20 := SMA_20 row;
     sma_50 := SMA_50 row;
     atr := ATR row;
     high := High row;
     low := Low row;
     open := Open row |}.

(** A trade is a dict: the entry keys are present from the start, the
    exit keys are added by [update] when the trade is closed. *)
Module Trade.
Record t : Type := {
  entry_date : Timestamp;
  entry_price : Q;
  position : Q;
  profit : Q;
  entry_metrics : Metrics;
  exit_date : option Timestamp;
  exit_price : option Q;
  exit_metrics : option Metrics
}.

(** The dict appended at a buy signal. *)
Definition opened (row : Row) (position : Q) : t :=
  {| entry_date := index row;
     entry_price := Close row;
     position := position;
     profit := 0;
     entry_metrics := metrics_of row;
     exit_date := None;
     exit_price := None;
     exit_metrics := None |}.

(** [trade.update({'exit_date': ..., 'exit_price': ..., 'profit': ...,
    'exit_metrics': ...})]. *)
Definition update (row : Row) (exit_price : Q) (trade_profit : Q) (trade : t) : t :=
  {| entry_date := entry_date trade;
     entry_price := entry_price trade;
     position := position trade;
     profit := trade_profit;
     entry_metrics := entry_metrics trade;
     exit_date := Some (index row);
     exit_price := Some exit_price;
     exit_metrics := Some (metrics_of row) |}.

(** ['exit_date' in trade]. *)
Definition has_exit_date (trade : t) : bool :=
  match exit_date trade with Some _ => true | None => false end.
End Trade.

(** [trades[-1].update(...)]: the last trade of the list is updated in
    place; an empty list has no last element. *)
Definition update_last (f : Trade.t -> Trade.t) (trades : list Trade.t)
  : result (list Trade.t) :=
  match trades with
  | [] => Raise IndexError
  | _ :: _ => Ok (alter f (pred (length trades)) trades)
  end.

(** ** Strategies: position sizing *)

Inductive PositionSizingMethod : Type :=
| CONTRACT_SIZE
| EQUITY_PERCENT
| SHARES
| DOLLAR_AMOUNT.

(** The attributes of a strategy object that the engine reads.
    [class_name] is [strategy.__class__.__name__]. *)
Module BaseStrategy.
Record t : Type := {
  class_name : string;
  initial_capital : Q;
  capital : Q;
  position_sizing_method : PositionSizingMethod;
  position_size_value : Q
}.

(** [BaseStrategy.__init__]. *)
Definition init (class_name : string) (initial_capital : Q) : t :=
  {| class_name := class_name;
     initial_capital := initial_capital;
     capital := initial_capital;
     position_sizing_method := EQUITY_PERCENT;
     position_size_value := 100 |}.

(** [BaseStrategy.get_position_size].  The method's closing [return 0]
    is for an attribute that is none of the four members. *)
Definition get_position_size (self : t) (price : Q) : result Q :=
  match position_sizing_method self with
  | CONTRACT_SIZE => Ok (position_size_value self)
  | EQUITY_PERCENT =>
      let* x := div (capital self * position_size_value self) 100 in
      div x price
  | SHARES => Ok (position_size_value self)
  | DOLLAR_AMOUNT => div (position_size_value self) price
  end.
End BaseStrategy.

(** ** The engine *)

(** The price frame handed to [run_backtest], before signals are added. *)
Record Bar : Type := {
  bar_index : Timestamp;
  bar_open : Q;
  bar_high : Q;
  bar_low : Q;
  bar_close : Q;
  bar_volume : Q
}.

(** The attributes of a [BacktestEngine] object.  [trade_details] is a
    [defaultdict(list)] keyed by (ticker, strategy name); it is only read
    with [get], which never inserts. *)
Record BacktestEngine : Type := {
  initial_capital : Q;
  trade_details : gmap (string * string) (list Trade.t);
  price_data : gmap string (list Bar)
}.

(** [BacktestEngine.__init__]. *)
Definition init (initial_capital : Q) : BacktestEngine :=
  {| initial_capital := initial_capital;
     trade_details := ∅;
     price_data := ∅ |}.

(** The local variables of [run_backtest] that the loop updates. *)
Record Locals : Type := {
  position : Q;
  capital : Q;
  trades : list Trade.t;
  entry_price : Q
}.

(** One iteration of [for idx, (index, row) in enumerate(df.iterrows())]. *)
Definition loop_body (strategy : BaseStrategy.t) (st : Locals) (row : Row)
  : result Locals :=
  if Qeq_bool (Signal row) 1 && Qeq_bool (position st) 0 then
    let* position := BaseStrategy.get_position_size strategy (Close row) in
    Ok {| position := position;
          capital := capital st;
          trades := trades st ++ [Trade.opened row position];
          entry_price := Close row |}
  else if Qeq_bool (Signal row) (-1) && negb (Qeq_bool (position st) 0) then
    let exit_price := Close row in
    let trade_profit := (exit_price - entry_price st) * position st in
    let* trades' := update_last (Trade.update row exit_price trade_profit) (trades st) in
    Ok {| position := 0;
          capital := capital st + trade_profit;
          trades := trades';
          entry_price := entry_price st |}
  else Ok st.

Fixpoint for_rows (strategy : BaseStrategy.t) (st : Locals) (df : list Row)
  : result Locals :=
  match df with
  | [] => Ok st
  | row :: rest =>
      let* st' := loop_body strategy st row in
      for_rows strategy st' rest
  end.

(** "Close any open position at the end": [df.iloc[-1]] is the last row. *)
Definition close_open_position (df : list Row) (st : Locals) : result Locals :=
  if negb (Qeq_bool (position st) 0) then
    match last df with
    | None => Raise IndexError
    | Some last_row =>
        let exit_price := Close last_row in
        let trade_profit := (exit_price - entry_price st) * position st in
        let* trades' :=
          update_last (Trade.update last_row exit_price trade_profit) (trades st) in
        Ok {| position := position st;
              capital := capital st + trade_profit;
              trades := trades';
              entry_price := entry_price st |}
    end
  else Ok st.

(** Lines 49-125 of [run_backtest]: the locals are initialised, the loop
    runs over [df], an open position is closed. *)
Definition simulate (self : BacktestEngine) (strategy : BaseStrategy.t)
    (df : list Row) : result Locals :=
  let st := {| position := 0;
               capital := initial_capital self;
               trades := [];
               entry_price := 0 |} in
  let* st' := for_rows strategy st df in
  close_open_position df st'.

(** ** Statistics *)

Record Report : Type := {
  net_profit : Q;
  total_trades : nat;
  win_rate : Q;
  profit_factor : number;
  max_drawdown : Q;
  avg_trade : Q;
  avg_bars_in_trade : Q
}.

(** The dict returned when there is no (closed) trade. *)
Definition zero_report : Report :=
  {| net_profit := 0;
     total_trades := 0;
     win_rate := 0;
     profit_factor := Finite 0;
     max_drawdown := 0;
     avg_trade := 0;
     avg_bars_in_trade := 0 |}.

(** The first loop of [_calculate_max_drawdown]: the running total of the
    profits, one point per trade. *)
Fixpoint equity_curve (current_equity : Q) (trades : list Trade.t) : list Q :=
  match trades with
  | [] => []
  | trade :: rest =>
      let current_equity := current_equity + Trade.profit trade in
      current_equity :: equity_curve current_equity rest
  end.

(** The second loop of [_calculate_max_drawdown]. *)
Fixpoint drawdown_walk (max_drawdown peak : Q) (curve : list Q) : result Q :=
  match curve with
  | [] => Ok max_drawdown
  | equity :: rest =>
      let peak := if Qgtb equity peak then equity else peak in
      let* ratio := div (peak - equity) peak in
      let drawdown := ratio * 100 in
      drawdown_walk (py_max max_drawdown drawdown) peak rest
  end.

Definition _calculate_max_drawdown (self : BacktestEngine) (trades : list Trade.t)
  : result Q :=
  match trades with
  | [] => Ok 0
  | _ :: _ =>
      drawdown_walk 0 (initial_capital self)
        (equity_curve (initial_capital self) trades)
  end.

(** [(t['exit_date'] - t['entry_date']).days for t in closed_trades]. *)
Fixpoint days_in_trade (closed_trades : list Trade.t) : result (list Z) :=
  match closed_trades with
  | [] => Ok []
  | t :: rest =>
      match Trade.exit_date t with
      | None => Raise KeyError
      | Some exit_date =>
          let* ds := days_in_trade rest in
          Ok (days (exit_date - Trade.entry_date t) :: ds)
      end
  end.

Definition is_empty {A : Type} (l : list A) : bool :=
  match l with [] => true | _ :: _ => false end.

Definition winning (closed_trades : list Trade.t) : list Trade.t :=
  List.filter (fun t => Qgtb (Trade.profit t) 0) closed_trades.

Definition losing (closed_trades : list Trade.t) : list Trade.t :=
  List.filter (fun t => Qle_bool (Trade.profit t) 0) closed_trades.

Definition gross_profit (closed_trades : list Trade.t) : Q :=
  py_sum (map Trade.profit (winning closed_trades)).

Definition gross_loss (closed_trades : list Trade.t) : Q :=
  if is_empty (losing closed_trades) then 1
  else Qabs (py_sum (map Trade.profit (losing closed_trades))).

Definition _calculate_statistics (self : BacktestEngine) (trades : list Trade.t)
    (final_capital : Q) : result Report :=
  if is_empty trades then Ok zero_report
  else
    let closed_trades := List.filter Trade.has_exit_date trades in
    if is_empty closed_trades then Ok zero_report
    else
      let winning_trades := winning closed_trades in
      let gross_profit := gross_profit closed_trades in
      let gross_loss := gross_loss closed_trades in
      let* win_rate :=
        if is_empty closed_trades then Ok 0
        else let* r := div (len winning_trades) (len closed_trades) in
             Ok (r * 100) in
      let* profit_factor :=
        if negb (Qeq_bool gross_loss 0)
        then let* r := div gross_profit gross_loss in Ok (Finite r)
        else Ok inf in
      let* max_drawdown := _calculate_max_drawdown self closed_trades in
      let* avg_trade :=
        if is_empty closed_trades then Ok 0
        else div (final_capital - initial_capital self) (len closed_trades) in
      let* avg_bars_in_trade :=
        if is_empty closed_trades then Ok 0
        else let* ds := days_in_trade closed_trades in
             div (inject_Z (fold_left Z.add ds 0%Z)) (len closed_trades) in
      Ok {| net_profit := final_capital - initial_capital self;
            total_trades := length closed_trades;
            win_rate := win_rate;
            profit_factor := profit_factor;
            max_drawdown := max_drawdown;
            avg_trade := avg_trade;
            avg_bars_in_trade := avg_bars_in_trade |}.

(** ** The public methods *)

(** [run_backtest(data, strategy, ticker)].  [df] is the frame
    [strategy.generate_signals(data)] with the indicator columns added.
    The result is the engine after the call and the returned report. *)
Definition run_backtest (self : BacktestEngine) (data : list Bar) (df : list Row)
    (strategy : BaseStrategy.t) (ticker : string)
  : result (BacktestEngine * Report) :=
  let self :=
    {| initial_capital := initial_capital self;
       trade_details := trade_details self;
       price_data := <[ticker := data]> (price_data self) |} in
  let* st := simulate self strategy df in
  let strategy_name := BaseStrategy.class_name strategy in
  let self :=
    {| initial_capital := initial_capital self;
       trade_details := <[(ticker, strategy_name) := trades st]> (trade_details self);
       price_data := price_data self |} in
  let* report := _calculate_statistics self (trades st) (capital st) in
  Ok (self, report).

Definition has_trades (self : BacktestEngine) (ticker strategy_name : string) : bool :=
  negb (is_empty (default [] (trade_details self !! (ticker, strategy_name)))).

Definition get_trade_details (self : BacktestEngine) (ticker strategy_name : string)
  : list Trade.t :=
  default [] (trade_details self !! (ticker, strategy_name)).

Definition get_price_data (self : BacktestEngine) (ticker : string)
  : option (list Bar) :=
  price_data self !! ticker.

(** * Vocabulary of the properties *)

(** A trade that was closed: the exit keys are present and the profit is
    the one computed from the trade's own entry price and position. *)
Definition closed (t : Trade.t) : Prop :=
  exists d x m,
    Trade.exit_date t = Some d /\ Trade.exit_price t = Some x /\
    Trade.exit_metrics t = Some m /\
    Trade.profit t = (x - Trade.entry_price t) * Trade.position t.

(** A trade as it was appended: no exit key, profit [0]. *)
Definition pending (t : Trade.t) : Prop :=
  Trade.exit_date t = None /\ Trade.exit_price t = None /\
  Trade.exit_metrics t = None /\ Trade.profit t = 0.

(** A trade the simulator will not touch again. *)
Definition finished (t : Trade.t) : Prop :=
  closed t \/ (pending t /\ Trade.position t == 0).

(** The last trade mirrors the locals. *)
Definition tracks (st : Locals) (t : Trade.t) : Prop :=
  pending t /\ Trade.position t = position st /\
  Trade.entry_price t = entry_price st.

(** The capital is the initial capital plus the profits of the ledger. *)
Definition balanced (ic : Q) (st : Locals) : Prop :=
  capital st == ic + py_sum (map Trade.profit (trades st)).

(** The invariant of the loop: either the position is the literal 0 and
    every trade is finished, or the last trade is the one the locals
    describe and the trades before it are finished. *)
Definition Inv (ic : Q) (st : Locals) : Prop :=
  balanced ic st /\
  ((position st = 0 /\ Forall finished (trades st)) \/
   (exists l t, trades st = l ++ [t] /\ Forall finished l /\ tracks st t)).

(** The locals before the first iteration. *)
Definition start (ic : Q) : Locals :=
  {| position := 0; capital := ic; trades := []; entry_price := 0 |}.

(** The three ways an iteration can end without an exception. *)
Inductive iteration (strategy : BaseStrategy.t) (st : Locals) (row : Row)
  : Locals -> Prop :=
| it_buy (size : Q) :
    Signal row == 1 -> position st == 0 ->
    BaseStrategy.get_position_size strategy (Close row) = Ok size ->
    iteration strategy st row
      {| position := size;
         capital := capital st;
         trades := trades st ++ [Trade.opened row size];
         entry_price := Close row |}
| it_sell (trades' : list Trade.t) :
    Signal row == -1 -> ~ position st == 0 ->
    update_last
      (Trade.update row (Close row) ((Close row - entry_price st) * position st))
      (trades st) = Ok trades' ->
    iteration strategy st row
      {| position := 0;
         capital := capital st + (Close row - entry_price st) * position st;
         trades := trades';
         entry_price := entry_price st |}
| it_hold :
    ~ (Signal row == 1 /\ position st == 0) ->
    ~ (Signal row == -1 /\ ~ position st == 0) ->
    iteration strategy st row st.

(** No close price of the frame is zero. *)
Definition priced (df : list Row) : Prop :=
  Forall (fun row => ~ Close row == 0) df.

(** What an entry records. *)
Definition entry_of (t : Trade.t) : Timestamp * Q * Q :=
  (Trade.entry_date t, Trade.entry_price t, Trade.position t).

(** The equity sequence does not decrease, starting from [prev]. *)
Fixpoint non_decreasing_from (prev : Q) (l : list Q) : Prop :=
  match l with
  | [] => True
  | x :: rest => prev <= x /\ non_decreasing_from x rest
  end.

(** The drawdown of every point of the curve against the running peak. *)
Fixpoint drawdown_samples (peak : Q) (curve : list Q) : list Q :=
  match curve with
  | [] => []
  | equity :: rest =>
      let peak := Qmax peak equity in
      (peak - equity) / peak * 100 :: drawdown_samples peak rest
  end.

(** The profit factor the report carries. *)
Definition profit_factor_of (closed_trades : list Trade.t) : number :=
  if Qeq_bool (gross_loss closed_trades) 0 then inf
  else Finite (gross_profit closed_trades / gross_loss closed_trades).

(** No trade of the ledger has size 0. *)
Definition sized (l : list Trade.t) : Prop :=
  Forall (fun t => ~ Trade.position t == 0) l.

(** A trade that comes from the frame: it was entered at a row with signal
    1, with the size the strategy gives at that row's close, and either
    has no exit field or was closed at a row of the frame. *)
Definition from_frame (strategy : BaseStrategy.t) (df : list Row) (t : Trade.t)
  : Prop :=
  (exists row, row ∈ df /\ Signal row == 1 /\
     Trade.entry_date t = index row /\
     Trade.entry_price t = Close row /\
     Trade.entry_metrics t = metrics_of row /\
     BaseStrategy.get_position_size strategy (Close row) = Ok (Trade.position t)) /\
  ((Trade.exit_date t = None /\ Trade.exit_price t = None /\
    Trade.exit_metrics t = None) \/
   (exists row, row ∈ df /\
      Trade.exit_date t = Some (index row) /\
      Trade.exit_price t = Some (Close row) /\
      Trade.exit_metrics t = Some (metrics_of row))).

(** The number of rows with signal 1. *)
Definition enter_signals (df : list Row) : nat :=
  length (List.filter (fun row => Qeq_bool (Signal row) 1) df).

(** The dates of a trade, and of a ledger, in the order they are recorded. *)
Definition dates_of (t : Trade.t) : list Timestamp :=
  Trade.entry_date t ::
  match Trade.exit_date t with Some d => [d] | None => [] end.

Fixpoint timeline (l : list Trade.t) : list Timestamp :=
  match l with
  | [] => []
  | t :: rest => dates_of t ++ timeline rest
  end.

(** Every element is at most the ones after it. *)
Fixpoint ascending (l : list Z) : Prop :=
  match l with
  | [] => True
  | x :: rest => Forall (fun y => (x <= y)%Z) rest /\ ascending rest
  end.

(** The trades in [l] are behind the last trade of the ledger. *)
Definition settled_prefix (l : list Trade.t) (trades : list Trade.t) : Prop :=
  l `prefix_of` trades /\ (length l < length trades)%nat.

(** The initial capital with the profits of the closed trades of a ledger
    added to it one after the other, in the order of the ledger. *)
Definition realized (ic : Q) (ledger : list Trade.t) : Q :=
  fold_left Qplus (map Trade.profit (List.filter Trade.has_exit_date ledger)) ic.

(** The largest difference of two timestamps a [Timedelta] can hold: a
    signed 64-bit count of nanoseconds. *)
Definition timedelta_max : Z := 9223372036854775807.

(** The difference of the indexes of any two rows fits a [Timedelta]. *)
Definition index_fits_timedelta (df : list Row) : Prop :=
  forall a b, a ∈ df -> b ∈ df -> (Z.abs (index b - index a) <= timedelta_max)%Z.

(** ** Concrete inputs *)

(** A row with the given index, close price and signal; the other price
    columns repeat the close, the indicators are not yet defined. *)
Definition row_at (index : Z) (close signal : Q) : Row :=
  {| index := index;
     Open := close; High := close; Low := close; Close := close;
     Volume := 0;
     Signal := signal;
     Volatility := None; RSI := None; SMA_20 := None; SMA_50 := None; ATR := None |}.

(** Enter at 100, exit at 95. *)
Definition losing_frame : list Row :=
  [row_at 0 100 1; row_at 1 105 0; row_at 2 110 0; row_at 3 95 (-1)].

(** Two round trips: 100 to 110, then 110 to 121. *)
Definition two_trips_frame : list Row :=
  [row_at 0 100 1; row_at 1 110 (-1); row_at 2 110 1; row_at 3 121 (-1)].


(** Enter, then exit at a higher price. *)
Definition short_frame : list Row :=
  [row_at 0 100 1; row_at 1 110 (-1)].

(** No signal at all. *)
Definition hold_frame : list Row :=
  [row_at 0 100 0; row_at 1 90 0; row_at 2 80 0].

(** A strategy as [BaseStrategy.__init__] leaves it. *)
Definition default_strategy : BaseStrategy.t := BaseStrategy.init "RSIStrategy" 1000.

(** The same with a size value of 0, the lower end of the size field of
    the window. *)
Definition zero_size_strategy : BaseStrategy.t :=
  {| BaseStrategy.class_name := "RSIStrategy";
     BaseStrategy.initial_capital := 1000;
     BaseStrategy.capital := 1000;
     BaseStrategy.position_sizing_method := EQUITY_PERCENT;
     BaseStrategy.position_size_value := 0 |}.

(** A strategy created with a capital of 0 and set to trade 10 shares. *)
Definition ten_shares_strategy : BaseStrategy.t :=
  {| BaseStrategy.class_name := "RSIStrategy";
     BaseStrategy.initial_capital := 0;
     BaseStrategy.capital := 0;
     BaseStrategy.position_sizing_method := SHARES;
     BaseStrategy.position_size_value := 10 |}.

(** A closed trade with the given position and exit price, entered at 100. *)
Definition closed_trade (position exit_price : Q) : Trade.t :=
  Trade.update (row_at 1 exit_price (-1)) exit_price
    ((exit_price - 100) * position)
    (Trade.opened (row_at 0 100 1) position).

(** Equity 1000, 1100, 900, 1200 from an initial capital of 1000. *)
Definition swing_ledger : list Trade.t :=
  [closed_trade 10 100; closed_trade 10 110; closed_trade 10 80; closed_trade 10 130].

(** Rows that follow the two round trips. *)
Definition later_rows : list Row := [row_at 4 130 1; row_at 5 120 (-1)].

(** Enter at 100 and never exit; the last close is 120. *)
Definition never_exit_frame : list Row :=
  [row_at 0 100 1; row_at 1 90 0; row_at 2 80 0; row_at 3 120 0].

(** * Properties *)

(** ** Numbers and lists *)

Lemma Qeq_bool_true (a b : Q) : Qeq_bool a b = true <-> a == b.
Proof. apply Qeq_bool_iff. Qed.

Lemma Qeq_bool_false (a b : Q) : Qeq_bool a b = false <-> ~ a == b.
Proof.
  split.
  - intros H E. apply Qeq_bool_iff in E. congruence.
  - intros H. destruct (Qeq_bool a b) eqn:E; [|reflexivity].
    apply Qeq_bool_iff in E. contradiction.
Qed.

Lemma Qgtb_true (a b : Q) : Qgtb a b = true <-> b < a.
Proof.
  unfold Qgtb. rewrite negb_true_iff. split.
  - intros H. apply Qnot_le_lt. intros L. apply Qle_bool_iff in L. congruence.
  - intros H. destruct (Qle_bool a b) eqn:E; [|reflexivity].
    apply Qle_bool_iff in E. exfalso. apply (Qlt_not_le _ _ H E).
Qed.

Lemma Qgtb_false (a b : Q) : Qgtb a b = false <-> a <= b.
Proof.
  unfold Qgtb. rewrite negb_false_iff. apply Qle_bool_iff.
Qed.

Lemma div_Ok (a b : Q) : ~ b == 0 -> div a b = Ok (a / b).
Proof. intros H. unfold div. apply Qeq_bool_false in H. now rewrite H. Qed.

Lemma py_sum_snoc (l : list Q) (x : Q) : py_sum (l ++ [x]) = py_sum l + x.
Proof. unfold py_sum. now rewrite fold_left_app. Qed.

Lemma fold_left_Qplus (l : list Q) (a : Q) :
  fold_left Qplus l a == a + py_sum l.
Proof.
  unfold py_sum. revert a. induction l as [|x l IH]; intros a; simpl.
  - ring.
  - rewrite (IH (a + x)), (IH (0 + x)). ring.
Qed.

Lemma py_sum_cons (x : Q) (l : list Q) : py_sum (x :: l) == x + py_sum l.
Proof.
  unfold py_sum at 1. simpl. rewrite fold_left_Qplus. ring.
Qed.

Lemma profits_snoc (l : list Trade.t) (t : Trade.t) :
  py_sum (map Trade.profit (l ++ [t])) = py_sum (map Trade.profit l) + Trade.profit t.
Proof. rewrite List.map_app. apply py_sum_snoc. Qed.

Lemma update_last_snoc (f : Trade.t -> Trade.t) (l : list Trade.t) (t : Trade.t) :
  update_last f (l ++ [t]) = Ok (l ++ [f t]).
Proof.
  unfold update_last. destruct (l ++ [t]) eqn:E.
  - destruct l; discriminate.
  - rewrite <- E. f_equal.
    rewrite length_app. simpl.
    replace (pred (length l + 1)) with (length l + 0)%nat by lia.
    now rewrite alter_app_r.
Qed.

(** ** The simulator's invariant *)

Lemma Inv_start (ic : Q) : Inv ic (start ic).
Proof.
  split.
  - unfold balanced, py_sum. simpl. ring.
  - left. split; [reflexivity | constructor].
Qed.

Lemma Inv_flat_finished (ic : Q) (st : Locals) :
  Inv ic st -> position st == 0 -> Forall finished (trades st).
Proof.
  intros [_ [[_ H] | (l & t & E & Hl & Ht & Hp & _)]] Hz; [exact H|].
  rewrite E. apply Forall_app. split; [exact Hl|].
  constructor; [|constructor]. right. split; [exact Ht|]. now rewrite Hp.
Qed.

Lemma Inv_open_last (ic : Q) (st : Locals) :
  Inv ic st -> ~ position st == 0 ->
  exists l t, trades st = l ++ [t] /\ Forall finished l /\ tracks st t.
Proof.
  intros [_ [[H _] | H]] Hnz; [|exact H].
  exfalso. apply Hnz. now rewrite H.
Qed.

Lemma update_closed (row : Row) (st : Locals) (t : Trade.t) :
  tracks st t ->
  closed (Trade.update row (Close row)
            ((Close row - entry_price st) * position st) t).
Proof.
  intros (_ & Hp & He).
  exists (index row), (Close row), (metrics_of row). simpl.
  rewrite Hp, He. repeat split; reflexivity.
Qed.

Lemma loop_body_iteration (strategy : BaseStrategy.t) (st st' : Locals) (row : Row) :
  loop_body strategy st row = Ok st' -> iteration strategy st row st'.
Proof.
  unfold loop_body.
  destruct (Qeq_bool (Signal row) 1) eqn:S1;
    destruct (Qeq_bool (position st) 0) eqn:P0; simpl.
  - destruct (BaseStrategy.get_position_size strategy (Close row)) as [size|e] eqn:G;
      simpl; [|discriminate].
    intros [= <-]. apply it_buy; [now apply Qeq_bool_true ..| exact G].
  - destruct (Qeq_bool (Signal row) (-1)) eqn:S2; simpl.
    + destruct (update_last _ (trades st)) as [trades'|e] eqn:U; simpl; [|discriminate].
      intros [= <-]. apply it_sell;
        [now apply Qeq_bool_true | now apply Qeq_bool_false | exact U].
    + intros [= <-]. apply it_hold.
      * intros [_ H]. apply Qeq_bool_true in H. congruence.
      * intros [H _]. apply Qeq_bool_true in H. congruence.
  - rewrite andb_false_r. intros [= <-]. apply it_hold.
    + intros [H _]. apply Qeq_bool_true in H. congruence.
    + intros [_ H]. apply H. now apply Qeq_bool_true.
  - destruct (Qeq_bool (Signal row) (-1)) eqn:S2; simpl.
    + destruct (update_last _ (trades st)) as [trades'|e] eqn:U; simpl; [|discriminate].
      intros [= <-]. apply it_sell;
        [now apply Qeq_bool_true | now apply Qeq_bool_false | exact U].
    + intros [= <-]. apply it_hold.
      * intros [H _]. apply Qeq_bool_true in H. congruence.
      * intros [H _]. apply Qeq_bool_true in H. congruence.
Qed.

Lemma iteration_Inv (strategy : BaseStrategy.t) (ic : Q) (st st' : Locals) (row : Row) :
  Inv ic st -> iteration strategy st row st' -> Inv ic st'.
Proof.
  intros HI It. destruct It as [size HS HP HG | trades' HS HP HU | _ _].
  - split.
    + destruct HI as [HB _]. unfold balanced in *. simpl.
      rewrite profits_snoc. simpl. rewrite HB. ring.
    + right. exists (trades st), (Trade.opened row size). split; [reflexivity|].
      split; [exact (Inv_flat_finished ic st HI HP)|].
      repeat split.
  - destruct (Inv_open_last ic st HI HP) as (l & t & E & Hl & Ht).
    rewrite E, update_last_snoc in HU. injection HU as <-.
    split.
    + destruct HI as [HB _]. unfold balanced in *. simpl.
      rewrite HB, E, !profits_snoc. simpl.
      destruct Ht as ((_ & _ & _ & ->) & _). ring.
    + left. split; [reflexivity|]. apply Forall_app. split; [exact Hl|].
      constructor; [|constructor]. left. now apply update_closed.
  - exact HI.
Qed.

Lemma for_rows_Inv (strategy : BaseStrategy.t) (ic : Q) (df : list Row) :
  forall st st', Inv ic st -> for_rows strategy st df = Ok st' -> Inv ic st'.
Proof.
  induction df as [|row rest IH]; intros st st' HI; simpl.
  - now intros [= <-].
  - destruct (loop_body strategy st row) as [st1|e] eqn:B; simpl; [|discriminate].
    apply IH. apply (iteration_Inv strategy ic st st1 row HI).
    now apply loop_body_iteration.
Qed.

(** What [close_open_position] leaves behind. *)
Lemma close_open_position_finished (ic : Q) (df : list Row) (st st' : Locals) :
  Inv ic st -> close_open_position df st = Ok st' ->
  balanced ic st' /\ Forall finished (trades st').
Proof.
  intros HI. unfold close_open_position.
  destruct (Qeq_bool (position st) 0) eqn:P0; simpl.
  - intros [= <-]. split; [apply HI|].
    apply (Inv_flat_finished ic st HI). now apply Qeq_bool_true.
  - apply Qeq_bool_false in P0.
    destruct (Inv_open_last ic st HI P0) as (l & t & E & Hl & Ht).
    destruct (last df) as [last_row|]; [|discriminate].
    rewrite E, update_last_snoc. simpl. intros [= <-]. split.
    + destruct HI as [HB _]. unfold balanced in *. simpl.
      rewrite HB, E, !profits_snoc. simpl.
      destruct Ht as ((_ & _ & _ & ->) & _). ring.
    + simpl. apply Forall_app. split; [exact Hl|].
      constructor; [|constructor]. left. now apply update_closed.
Qed.

Lemma simulate_finished (self : BacktestEngine) (strategy : BaseStrategy.t)
    (df : list Row) (st : Locals) :
  simulate self strategy df = Ok st ->
  balanced (initial_capital self) st /\ Forall finished (trades st).
Proof.
  unfold simulate.
  destruct (for_rows strategy _ df) as [st1|e] eqn:F; simpl; [|discriminate].
  apply close_open_position_finished.
  eapply for_rows_Inv; [|exact F]. apply Inv_start.
Qed.

(** ** The simulator raises nothing on frames with non-zero prices *)

Lemma get_position_size_Ok (strategy : BaseStrategy.t) (price : Q) :
  ~ price == 0 -> exists size, BaseStrategy.get_position_size strategy price = Ok size.
Proof.
  intros H. unfold BaseStrategy.get_position_size.
  destruct (BaseStrategy.position_sizing_method strategy); eauto.
  - rewrite div_Ok by discriminate. simpl. rewrite div_Ok by exact H. eauto.
  - rewrite div_Ok by exact H. eauto.
Qed.

Lemma loop_body_Ok (strategy : BaseStrategy.t) (ic : Q) (st : Locals) (row : Row) :
  Inv ic st -> ~ Close row == 0 -> exists st', loop_body strategy st row = Ok st'.
Proof.
  intros HI HC. unfold loop_body.
  destruct (Qeq_bool (Signal row) 1 && Qeq_bool (position st) 0).
  - destruct (get_position_size_Ok strategy (Close row) HC) as [size ->].
    simpl. eauto.
  - destruct (Qeq_bool (Signal row) (-1)); simpl; [|eauto].
    destruct (Qeq_bool (position st) 0) eqn:P0; simpl; [eauto|].
    apply Qeq_bool_false in P0.
    destruct (Inv_open_last ic st HI P0) as (l & t & -> & _).
    rewrite update_last_snoc. simpl. eauto.
Qed.

Lemma for_rows_Ok (strategy : BaseStrategy.t) (ic : Q) (df : list Row) :
  forall st, Inv ic st -> priced df -> exists st', for_rows strategy st df = Ok st'.
Proof.
  induction df as [|row rest IH]; intros st HI HP; simpl; [eauto|].
  apply Forall_cons in HP as [HC HP].
  destruct (loop_body_Ok strategy ic st row HI HC) as [st1 B]. rewrite B. simpl.
  apply IH; [|exact HP].
  apply (iteration_Inv strategy ic st st1 row HI). now apply loop_body_iteration.
Qed.

Lemma simulate_Ok (self : BacktestEngine) (strategy : BaseStrategy.t) (df : list Row) :
  priced df -> exists st, simulate self strategy df = Ok st.
Proof.
  intros HP. unfold simulate.
  destruct (for_rows_Ok strategy (initial_capital self) df _
              (Inv_start (initial_capital self)) HP) as [st1 F].
  fold (start (initial_capital self)). rewrite F. simpl.
  assert (HI : Inv (initial_capital self) st1)
    by (eapply for_rows_Inv; [apply Inv_start | exact F]).
  unfold close_open_position.
  destruct (Qeq_bool (position st1) 0) eqn:P0; simpl; [eauto|].
  apply Qeq_bool_false in P0.
  destruct (Inv_open_last _ st1 HI P0) as (l & t & E & _).
  destruct df as [|row rest].
  - simpl in F. injection F as <-. destruct l; discriminate.
  - destruct (last (row :: rest)) as [last_row|] eqn:L.
    + rewrite E, update_last_snoc. simpl. eauto.
    + apply last_None in L. discriminate.
Qed.

(** ** Profits *)

Lemma finished_profits (l : list Trade.t) :
  Forall finished l ->
  py_sum (map Trade.profit (List.filter Trade.has_exit_date l))
  == py_sum (map Trade.profit l).
Proof.
  induction 1 as [|t l Ht _ IH]; [reflexivity|].
  simpl. unfold Trade.has_exit_date.
  destruct Ht as [(d & x & m & -> & _) | ((E & _ & _ & Hp) & _)].
  - simpl. now rewrite !py_sum_cons, IH.
  - rewrite E, py_sum_cons, Hp, IH. ring.
Qed.

Lemma realized_snoc_open (ic : Q) (l : list Trade.t) (t : Trade.t) :
  Trade.has_exit_date t = false -> realized ic (l ++ [t]) = realized ic l.
Proof.
  intros H. unfold realized. rewrite List.filter_app. simpl. rewrite H.
  now rewrite app_nil_r.
Qed.

Lemma realized_snoc_closed (ic : Q) (l : list Trade.t) (t : Trade.t) :
  Trade.has_exit_date t = true ->
  realized ic (l ++ [t]) = realized ic l + Trade.profit t.
Proof.
  intros H. unfold realized. rewrite List.filter_app. simpl. rewrite H.
  now rewrite List.map_app, fold_left_app.
Qed.

Lemma pending_open (t : Trade.t) : pending t -> Trade.has_exit_date t = false.
Proof. intros (H & _). unfold Trade.has_exit_date. now rewrite H. Qed.

Lemma iteration_realized (strategy : BaseStrategy.t) (ic : Q) (st st' : Locals)
    (row : Row) :
  Inv ic st -> iteration strategy st row st' ->
  capital st = realized ic (trades st) -> capital st' = realized ic (trades st').
Proof.
  intros HI It H. destruct It as [size HS HP HG | trades' HS HP HU | _ _].
  - simpl. now rewrite realized_snoc_open.
  - destruct (Inv_open_last ic st HI HP) as (l & t & E & _ & Ht & _).
    rewrite E, update_last_snoc in HU. injection HU as <-. simpl.
    rewrite realized_snoc_closed by reflexivity. simpl.
    now rewrite H, E, (realized_snoc_open ic l t (pending_open t Ht)).
  - exact H.
Qed.

Lemma for_rows_realized (strategy : BaseStrategy.t) (ic : Q) (df : list Row) :
  forall st st', Inv ic st -> for_rows strategy st df = Ok st' ->
    capital st = realized ic (trades st) -> capital st' = realized ic (trades st').
Proof.
  induction df as [|row rest IH]; intros st st' HI; simpl.
  - now intros [= <-].
  - destruct (loop_body strategy st row) as [st1|e] eqn:B; simpl; [|discriminate].
    apply loop_body_iteration in B. intros F H.
    apply (IH st1 st'); [now apply (iteration_Inv strategy ic st st1 row) | exact F |].
    now apply (iteration_realized strategy ic st st1 row).
Qed.

(** An honoured exit signal, on locals the invariant holds for. *)
Lemma exit_step (strategy : BaseStrategy.t) (ic : Q) (st st' : Locals) (row : Row) :
  Inv ic st -> loop_body strategy st row = Ok st' ->
  Signal row == -1 -> ~ position st == 0 ->
  exists l t, trades st = l ++ [t] /\ Trade.exit_date t = None /\
    let trade_profit := (Close row - Trade.entry_price t) * Trade.position t in
    st' = {| position := 0;
             capital := capital st + trade_profit;
             trades := l ++ [Trade.update row (Close row) trade_profit t];
             entry_price := entry_price st |}.
Proof.
  intros HI B HS HP.
  destruct (Inv_open_last ic st HI HP) as (l & t & E & _ & (Hd & _) & Hp & He).
  exists l, t. split; [exact E|]. split; [exact Hd|]. simpl.
  revert B. unfold loop_body.
  assert (S1 : Qeq_bool (Signal row) 1 = false)
    by (apply Qeq_bool_false; rewrite HS; discriminate).
  apply Qeq_bool_true in HS. apply Qeq_bool_false in HP.
  rewrite S1, HS, HP. simpl. rewrite E, update_last_snoc. simpl.
  intros [= <-]. now rewrite Hp, He.
Qed.

(** The end of the frame, on locals the invariant holds for. *)
Lemma force_close_step (ic : Q) (df : list Row) (st : Locals) :
  Inv ic st -> df <> [] -> ~ position st == 0 ->
  exists l t last_row,
    last df = Some last_row /\ trades st = l ++ [t] /\ Trade.exit_date t = None /\
    let trade_profit := (Close last_row - Trade.entry_price t) * Trade.position t in
    close_open_position df st =
      Ok {| position := position st;
            capital := capital st + trade_profit;
            trades := l ++ [Trade.update last_row (Close last_row) trade_profit t];
            entry_price := entry_price st |}.
Proof.
  intros HI Hdf HP.
  destruct (Inv_open_last ic st HI HP) as (l & t & E & _ & (Hd & _) & Hp & He).
  destruct (last df) as [last_row|] eqn:L; [|apply last_None in L; contradiction].
  exists l, t, last_row. split; [reflexivity|]. split; [exact E|].
  split; [exact Hd|]. simpl. unfold close_open_position.
  apply Qeq_bool_false in HP. rewrite HP, L. simpl.
  rewrite E, update_last_snoc. simpl. now rewrite Hp, He.
Qed.

Lemma simulate_realized (self : BacktestEngine) (strategy : BaseStrategy.t)
    (df : list Row) (st : Locals) :
  simulate self strategy df = Ok st ->
  capital st = realized (initial_capital self) (trades st).
Proof.
  unfold simulate. fold (start (initial_capital self)).
  destruct (for_rows strategy _ df) as [st1|e] eqn:F; simpl; [|discriminate].
  assert (HI : Inv (initial_capital self) st1)
    by (eapply for_rows_Inv; [apply Inv_start | exact F]).
  assert (H1 : capital st1 = realized (initial_capital self) (trades st1)).
  { eapply for_rows_realized; [apply Inv_start | exact F | reflexivity]. }
  destruct (Qeq_bool (position st1) 0) eqn:P0.
  - unfold close_open_position. rewrite P0. simpl. now intros [= <-].
  - apply Qeq_bool_false in P0.
    assert (Hdf : df <> []).
    { intros ->. simpl in F. injection F as <-. now apply P0. }
    destruct (force_close_step _ df st1 HI Hdf P0)
      as (l & t & last_row & _ & E & Hd & ->).
    intros [= <-]. simpl.
    rewrite realized_snoc_closed by reflexivity. simpl. rewrite H1, E.
    rewrite realized_snoc_open; [reflexivity|].
    unfold Trade.has_exit_date. now rewrite Hd.
Qed.

(** C4. In the returned ledger every trade is either closed, with exit
    fields and as profit exactly (exit_price - entry_price) * position of
    its own recorded fields, or an entry of size 0 that was never closed;
    and the final capital is the initial capital to which the profits of
    the closed trades were added one after the other, in ledger order.
    Both ways of closing do the same: an honoured exit signal closes the
    last trade at the row's close and adds its profit to the capital, and
    when the loop ends with an open position the last trade is closed at
    the close of the last row and its profit added to the capital.  On a
    frame whose close prices are not zero the simulation does return. *)
Theorem profit_exact_and_added_to_capital
    (self : BacktestEngine) (strategy : BaseStrategy.t) (df : list Row) :
  (forall st, simulate self strategy df = Ok st ->
     Forall finished (trades st) /\
     (forall t x, t ∈ trades st -> Trade.exit_price t = Some x ->
        Trade.profit t = (x - Trade.entry_price t) * Trade.position t) /\
     capital st = realized (initial_capital self) (trades st)) /\
  (forall df0 st row st',
     for_rows strategy (start (initial_capital self)) df0 = Ok st ->
     loop_body strategy st row = Ok st' ->
     Signal row == -1 -> ~ position st == 0 ->
     exists l t, trades st = l ++ [t] /\ Trade.exit_date t = None /\
       let trade_profit := (Close row - Trade.entry_price t) * Trade.position t in
       st' = {| position := 0;
                capital := capital st + trade_profit;
                trades := l ++ [Trade.update row (Close row) trade_profit t];
                entry_price := entry_price st |}) /\
  (forall st1,
     for_rows strategy (start (initial_capital self)) df = Ok st1 ->
     ~ position st1 == 0 ->
     exists l t last_row,
       last df = Some last_row /\ trades st1 = l ++ [t] /\
       Trade.exit_date t = None /\
       let trade_profit :=
         (Close last_row - Trade.entry_price t) * Trade.position t in
       simulate self strategy df =
         Ok {| position := position st1;
               capital := capital st1 + trade_profit;
               trades := l ++ [Trade.update last_row (Close last_row) trade_profit t];
               entry_price := entry_price st1 |}) /\
  (priced df -> exists st, simulate self strategy df = Ok st).
Proof.
  split; [|split; [|split; [|apply simulate_Ok]]].
  - intros st HS. destruct (simulate_finished self strategy df st HS) as [_ HF].
    split; [exact HF|]. split; [|now apply (simulate_realized self strategy df)].
    intros t x Hin Hx. rewrite Forall_forall in HF.
    destruct (HF t Hin) as [(d & y & m & _ & Hy & _ & Hp) | ((_ & N & _) & _)].
    + rewrite Hy in Hx. injection Hx as <-. exact Hp.
    + congruence.
  - intros df0 st row st' F. apply (exit_step strategy (initial_capital self)).
    eapply for_rows_Inv; [apply Inv_start | exact F].
  - intros st1 F HP.
    assert (HI : Inv (initial_capital self) st1)
      by (eapply for_rows_Inv; [apply Inv_start | exact F]).
    assert (Hdf : df <> []).
    { intros ->. simpl in F. injection F as <-. now apply HP. }
    destruct (force_close_step _ df st1 HI Hdf HP)
      as (l & t & last_row & L & E & Hd & C).
    exists l, t, last_row. split; [exact L|]. split; [exact E|].
    split; [exact Hd|]. simpl. unfold simulate.
    fold (start (initial_capital self)). rewrite F. simpl. exact C.
Qed.

(** ** Entering and leaving a position *)

Lemma alter_entries (f : Trade.t -> Trade.t) (l : list Trade.t) :
  (forall t, entry_of (f t) = entry_of t) ->
  forall i : nat, map entry_of (alter f i l) = map entry_of l.
Proof.
  intros Hf. induction l as [|t l IH]; intros i; [reflexivity|].
  destruct i as [|i]; simpl.
  - now rewrite Hf.
  - f_equal. apply IH.
Qed.

Lemma update_last_entries (f : Trade.t -> Trade.t) (l l' : list Trade.t) :
  (forall t, entry_of (f t) = entry_of t) ->
  update_last f l = Ok l' -> map entry_of l' = map entry_of l.
Proof.
  intros Hf. unfold update_last. destruct l as [|t l]; [discriminate|].
  intros [= <-]. now apply alter_entries.
Qed.

Lemma enter_while_open (strategy : BaseStrategy.t) (st : Locals) (row : Row) :
  ~ position st == 0 -> Signal row == 1 -> loop_body strategy st row = Ok st.
Proof.
  intros HP HS. unfold loop_body.
  apply Qeq_bool_false in HP. rewrite HP, andb_false_r.
  assert (E : Qeq_bool (Signal row) (-1) = false).
  { apply Qeq_bool_false. rewrite HS. discriminate. }
  now rewrite E.
Qed.

Lemma exit_while_flat (strategy : BaseStrategy.t) (st : Locals) (row : Row) :
  position st == 0 -> Signal row == -1 -> loop_body strategy st row = Ok st.
Proof.
  intros HP HS. unfold loop_body.
  assert (E : Qeq_bool (Signal row) 1 = false).
  { apply Qeq_bool_false. rewrite HS. discriminate. }
  apply Qeq_bool_true in HP. now rewrite E, HP, andb_false_r.
Qed.

Lemma iteration_entries (strategy : BaseStrategy.t) (st st' : Locals) (row : Row) :
  iteration strategy st row st' ->
  map entry_of (trades st') = map entry_of (trades st) \/
  (position st == 0 /\ Signal row == 1 /\
   trades st' = trades st ++ [Trade.opened row (position st')]).
Proof.
  destruct 1 as [size HS HP HG | trades' HS HP HU | _ _].
  - right. now repeat split.
  - left. simpl. eapply update_last_entries; [|exact HU]. reflexivity.
  - now left.
Qed.

(** C8. An Enter signal while the position is not 0 leaves every local
    unchanged, and so does an Exit signal while the position is 0.  An
    iteration never changes the entry date, entry price or position of a
    trade of the ledger; it appends a trade only on an Enter signal with
    position 0.  After any number of iterations the position is 0 or the
    size recorded in the last trade, which is then still open with the
    current entry price, and every earlier trade is closed or has size 0:
    at most one trade holds a non-zero position. *)
Theorem enter_honoured_only_when_flat (strategy : BaseStrategy.t) :
  (forall st row,
     (~ position st == 0 -> Signal row == 1 -> loop_body strategy st row = Ok st) /\
     (position st == 0 -> Signal row == -1 -> loop_body strategy st row = Ok st) /\
     (forall st', loop_body strategy st row = Ok st' ->
        map entry_of (trades st') = map entry_of (trades st) \/
        (position st == 0 /\ Signal row == 1 /\
         trades st' = trades st ++ [Trade.opened row (position st')]))) /\
  (forall ic df st, for_rows strategy (start ic) df = Ok st ->
     position st = 0 \/
     exists l t, trades st = l ++ [t] /\
       Trade.position t = position st /\
       Trade.entry_price t = entry_price st /\
       Trade.exit_date t = None /\
       Forall (fun t' => Trade.has_exit_date t' = true \/ Trade.position t' == 0) l).
Proof.
  split.
  - intros st row. split; [apply enter_while_open|].
    split; [apply exit_while_flat|].
    intros st' H. apply (iteration_entries strategy). now apply loop_body_iteration.
  - intros ic df st F.
    assert (HI : Inv ic st) by (eapply for_rows_Inv; [apply Inv_start | exact F]).
    destruct HI as [_ [[H _] | (l & t & E & Hl & (Hd & _) & Hp & He)]]; [now left|].
    right. exists l, t. repeat split; try assumption.
    eapply Forall_impl; [exact Hl|]. intros t' [(d & x & m & Hd' & _) | [_ Hz]].
    + left. unfold Trade.has_exit_date. now rewrite Hd'.
    + now right.
Qed.

(** ** Frames without an Enter signal *)

Lemma for_rows_no_enter (strategy : BaseStrategy.t) (df : list Row) (st : Locals) :
  position st == 0 ->
  Forall (fun row => ~ Signal row == 1) df ->
  for_rows strategy st df = Ok st.
Proof.
  intros HP. induction 1 as [|row rest HS _ IH]; [reflexivity|].
  simpl. unfold loop_body.
  apply Qeq_bool_false in HS. apply Qeq_bool_true in HP.
  rewrite HS, HP, andb_false_r. simpl. exact IH.
Qed.

Lemma simulate_no_enter (self : BacktestEngine) (strategy : BaseStrategy.t)
    (df : list Row) :
  Forall (fun row => ~ Signal row == 1) df ->
  simulate self strategy df = Ok (start (initial_capital self)).
Proof.
  intros H. unfold simulate. fold (start (initial_capital self)).
  rewrite for_rows_no_enter by (reflexivity || exact H). reflexivity.
Qed.

(** C9. On a frame in which no row has signal 1, the simulation ends with
    an empty ledger and the capital it started with, and [run_backtest]
    stores the empty ledger and returns the zero report. *)
Theorem no_enter_no_trades
    (self : BacktestEngine) (data : list Bar) (df : list Row)
    (strategy : BaseStrategy.t) (ticker : string) :
  Forall (fun row => ~ Signal row == 1) df ->
  (exists st, simulate self strategy df = Ok st /\
     trades st = [] /\ capital st = initial_capital self) /\
  run_backtest self data df strategy ticker =
    Ok ({| initial_capital := initial_capital self;
           trade_details :=
             <[(ticker, BaseStrategy.class_name strategy) := []]> (trade_details self);
           price_data := <[ticker := data]> (price_data self) |},
        zero_report).
Proof.
  intros H. split.
  - exists (start (initial_capital self)). split; [|split; reflexivity].
    now apply simulate_no_enter.
  - unfold run_backtest. rewrite simulate_no_enter by exact H. reflexivity.
Qed.

(** ** The stored ledgers *)

Lemma run_backtest_inv (self self' : BacktestEngine) (data : list Bar) (df : list Row)
    (strategy : BaseStrategy.t) (ticker : string) (report : Report) :
  run_backtest self data df strategy ticker = Ok (self', report) ->
  exists st, simulate self strategy df = Ok st /\
    self' = {| initial_capital := initial_capital self;
               trade_details :=
                 <[(ticker, BaseStrategy.class_name strategy) := trades st]>
                   (trade_details self);
               price_data := <[ticker := data]> (price_data self) |} /\
    _calculate_statistics self' (trades st) (capital st) = Ok report.
Proof.
  unfold run_backtest.
  change (simulate {| initial_capital := initial_capital self;
                      trade_details := trade_details self;
                      price_data := <[ticker := data]> (price_data self) |}
            strategy df)
    with (simulate self strategy df).
  destruct (simulate self strategy df) as [st|e]; simpl; [|discriminate].
  match goal with |- context [_calculate_statistics ?s _ _] => set (self2 := s) end.
  destruct (_calculate_statistics self2 (trades st) (capital st)) as [r|e] eqn:C;
    simpl; [|discriminate].
  intros [= <- <-]. exists st. repeat split. exact C.
Qed.


(** ** Reports without closed trades *)

(** C5. When no trade of the ledger has an exit date (in particular when
    the ledger is empty) [_calculate_statistics] returns the zero report
    and raises nothing; the result depends neither on the engine nor on
    the final capital, so every call returns the same report. *)
Theorem no_closed_trades_zero_report (trades : list Trade.t) :
  List.filter Trade.has_exit_date trades = [] ->
  forall (self self' : BacktestEngine) (final_capital final_capital' : Q),
    _calculate_statistics self trades final_capital = Ok zero_report /\
    _calculate_statistics self trades final_capital =
    _calculate_statistics self' trades final_capital'.
Proof.
  intros H self self' c c'.
  assert (Z : forall s x, _calculate_statistics s trades x = Ok zero_report).
  { intros s x. unfold _calculate_statistics.
    destruct (is_empty trades); [reflexivity|]. now rewrite H. }
  split; [apply Z|]. now rewrite !Z.
Qed.

(** ** Drawdown *)

Lemma running_peak (peak equity : Q) :
  (if Qgtb equity peak then equity else peak) = Qmax peak equity.
Proof.
  unfold Qmax, GenericMinMax.gmax.
  destruct (Qcompare_spec peak equity) as [H|H|H].
  - assert (E : Qgtb equity peak = false) by (apply Qgtb_false; rewrite H; apply Qle_refl).
    now rewrite E.
  - assert (E : Qgtb equity peak = true) by now apply Qgtb_true.
    now rewrite E.
  - assert (E : Qgtb equity peak = false) by (apply Qgtb_false; now apply Qlt_le_weak).
    now rewrite E.
Qed.

Lemma non_decreasing_from_eq (p q : Q) (l : list Q) :
  p == q -> non_decreasing_from p l <-> non_decreasing_from q l.
Proof. intros E. destruct l; simpl; [tauto|]. now rewrite E. Qed.

Lemma drawdown_nonneg (p e : Q) : 0 < p -> e <= p -> 0 <= (p - e) / p * 100.
Proof.
  intros Hp He. apply Qmult_le_0_compat; [|discriminate].
  apply Qmult_le_0_compat; [lra|]. apply Qinv_le_0_compat. lra.
Qed.

Lemma drawdown_zero (p e : Q) : 0 < p -> (p - e) / p * 100 == 0 <-> p == e.
Proof.
  intros Hp. split; intros H.
  - assert (E : p - e == (p - e) / p * 100 * (p / 100)) by (field; lra).
    rewrite H in E. lra.
  - rewrite <- H. field. lra.
Qed.

Lemma py_max_cases (a b : Q) :
  (py_max a b = a /\ b <= a) \/ (py_max a b = b /\ a < b).
Proof.
  unfold py_max. destruct (Qgtb b a) eqn:E.
  - right. split; [reflexivity | now apply Qgtb_true].
  - left. split; [reflexivity | now apply Qgtb_false].
Qed.

Lemma drawdown_walk_spec (curve : list Q) :
  forall m p, 0 < p -> 0 <= m ->
  exists d, drawdown_walk m p curve = Ok d /\
    m <= d /\
    (forall x, x ∈ drawdown_samples p curve -> x <= d) /\
    (d = m \/ d ∈ drawdown_samples p curve) /\
    (d == 0 <-> m == 0 /\ non_decreasing_from p curve).
Proof.
  induction curve as [|e rest IH]; intros m p Hp Hm; simpl.
  - exists m. split; [reflexivity|]. split; [apply Qle_refl|].
    split; [intros x Hx; inversion Hx|]. split; [now left | tauto].
  - rewrite running_peak. set (p' := Qmax p e).
    assert (Hpp : p <= p') by apply Q.le_max_l.
    assert (Hep : e <= p') by apply Q.le_max_r.
    assert (Hp' : 0 < p') by lra.
    rewrite div_Ok by lra. simpl.
    set (dd := (p' - e) / p' * 100).
    assert (Hdd : 0 <= dd) by now apply drawdown_nonneg.
    set (m' := py_max m dd).
    assert (Hm' : m <= m' /\ dd <= m' /\ (m' = m \/ m' = dd)).
    { unfold m'. destruct (py_max_cases m dd) as [[-> H]|[-> H]].
      - split; [apply Qle_refl|]. split; [exact H | now left].
      - split; [now apply Qlt_le_weak|]. split; [apply Qle_refl | now right]. }
    destruct Hm' as (Hmm & Hdm & Hmc).
    destruct (IH m' p' Hp' ltac:(lra)) as (d & Hd & Hle & Hub & Hin & Hz).
    exists d. split; [exact Hd|]. split; [lra|]. split; [|split].
    + intros x Hx. apply elem_of_cons in Hx as [-> | Hx]; [lra | now apply Hub].
    + destruct Hin as [-> | Hin].
      * destruct Hmc as [-> | ->]; [now left | right; apply list_elem_of_here].
      * right. now apply list_elem_of_further.
    + rewrite Hz. split.
      * intros [Hm0 Hnd].
        assert (Hdd0 : dd == 0) by lra.
        assert (Hpe : p' == e) by (apply (drawdown_zero p' e Hp'); exact Hdd0).
        split; [lra|]. split; [lra|].
        now apply (non_decreasing_from_eq p' e).
      * intros (Hm0 & Hpe & Hnd).
        assert (Hpe' : p' == e) by (apply Qle_antisym; [apply Q.max_lub; lra | exact Hep]).
        split.
        -- assert (Hdd0 : dd == 0) by (apply (drawdown_zero p' e Hp'); exact Hpe').
           destruct Hmc as [-> | ->]; assumption.
        -- now apply (non_decreasing_from_eq p' e).
Qed.

Lemma equity_curve_length (trades : list Trade.t) :
  forall c, length (equity_curve c trades) = length trades.
Proof.
  induction trades as [|t rest IH]; intros c; simpl; [reflexivity|].
  now rewrite IH.
Qed.

Lemma equity_curve_lookup (trades : list Trade.t) :
  forall c (i : nat) e,
    equity_curve c trades !! i = Some e ->
    e == c + py_sum (map Trade.profit (take (S i) trades)).
Proof.
  induction trades as [|t rest IH]; intros c i e; [discriminate|].
  destruct i as [|i]; simpl.
  - intros [= <-]. unfold py_sum. simpl. ring.
  - intros H. apply IH in H. rewrite py_sum_cons, H. simpl. ring.
Qed.

(** C7. The equity curve has one point per trade, the initial capital
    plus the profits so far.  For a positive initial capital
    [_calculate_max_drawdown] returns a number: the largest of 0 and the
    drawdowns (peak - equity) / peak * 100 of the points of the equity
    curve against the running peak, which starts at the initial capital
    (so 0 for an empty ledger).  The result is at least 0, and it is 0
    exactly when the equity sequence, starting from the initial capital,
    never decreases. *)
Theorem max_drawdown_spec (self : BacktestEngine) (trades : list Trade.t) :
  0 < initial_capital self ->
  let curve := equity_curve (initial_capital self) trades in
  let samples := drawdown_samples (initial_capital self) curve in
  (length curve = length trades /\
   forall (i : nat) e, curve !! i = Some e ->
     e == initial_capital self + py_sum (map Trade.profit (take (S i) trades))) /\
  exists d, _calculate_max_drawdown self trades = Ok d /\
    (forall x, x ∈ samples -> x <= d) /\
    (d = 0 \/ d ∈ samples) /\
    0 <= d /\
    (d == 0 <-> non_decreasing_from (initial_capital self) curve).
Proof.
  intros Hic curve samples.
  split; [split; [apply equity_curve_length | apply equity_curve_lookup]|].
  unfold _calculate_max_drawdown.
  destruct (drawdown_walk_spec curve 0 (initial_capital self) Hic (Qle_refl 0))
    as (d & Hd & Hle & Hub & Hin & Hz).
  destruct trades as [|t rest].
  - exists 0. split; [reflexivity|]. split; [intros x Hx; inversion Hx|].
    split; [now left|]. split; [apply Qle_refl|]. simpl. split; [tauto | reflexivity].
  - exists d. split; [exact Hd|]. split; [exact Hub|]. split; [exact Hin|].
    split; [exact Hle|]. rewrite Hz. split; [tauto|]. split; [reflexivity | assumption].
Qed.

(** ** Reports with closed trades *)

Lemma len_nonzero {A : Type} (l : list A) : l <> [] -> ~ len l == 0.
Proof.
  destruct l as [|x l]; [congruence|]. intros _.
  unfold len, Qeq. simpl. lia.
Qed.

Lemma is_empty_false {A : Type} (l : list A) : l <> [] -> is_empty l = false.
Proof. destruct l; [congruence | reflexivity]. Qed.

Lemma days_in_trade_Ok (l : list Trade.t) :
  Forall (fun t => Trade.has_exit_date t = true) l ->
  exists ds, days_in_trade l = Ok ds.
Proof.
  induction 1 as [|t l Ht _ [ds IH]]; simpl; [eauto|].
  unfold Trade.has_exit_date in Ht.
  destruct (Trade.exit_date t); [|discriminate]. rewrite IH. simpl. eauto.
Qed.

Lemma filter_has_exit_date (trades : list Trade.t) :
  Forall (fun t => Trade.has_exit_date t = true)
    (List.filter Trade.has_exit_date trades).
Proof.
  induction trades as [|t l IH]; simpl; [constructor|].
  destruct (Trade.has_exit_date t) eqn:E; [constructor|]; assumption.
Qed.

Lemma _calculate_statistics_inv (self : BacktestEngine) (trades : list Trade.t)
    (final_capital : Q) (report : Report) :
  let closed_trades := List.filter Trade.has_exit_date trades in
  closed_trades <> [] ->
  _calculate_statistics self trades final_capital = Ok report ->
  net_profit report = final_capital - initial_capital self /\
  total_trades report = length closed_trades /\
  win_rate report = len (winning closed_trades) / len closed_trades * 100 /\
  profit_factor report = profit_factor_of closed_trades /\
  _calculate_max_drawdown self closed_trades = Ok (max_drawdown report).
Proof.
  intros ct Hne. unfold _calculate_statistics. fold ct.
  destruct (is_empty trades) eqn:Et.
  { destruct trades; [|discriminate]. now destruct Hne. }
  rewrite (is_empty_false ct Hne).
  rewrite (div_Ok _ _ (len_nonzero ct Hne)). simpl.
  unfold profit_factor_of.
  destruct (Qeq_bool (gross_loss ct) 0) eqn:G; simpl.
  - destruct (_calculate_max_drawdown self ct) as [d|]; simpl; [|discriminate].
    rewrite (div_Ok _ _ (len_nonzero ct Hne)). simpl.
    destruct (days_in_trade ct) as [ds|]; simpl; [|discriminate].
    rewrite (div_Ok _ _ (len_nonzero ct Hne)). simpl.
    intros [= <-]. simpl. repeat split; reflexivity.
  - apply Qeq_bool_false in G. rewrite (div_Ok _ _ G). simpl.
    destruct (_calculate_max_drawdown self ct) as [d|]; simpl; [|discriminate].
    rewrite (div_Ok _ _ (len_nonzero ct Hne)). simpl.
    destruct (days_in_trade ct) as [ds|]; simpl; [|discriminate].
    rewrite (div_Ok _ _ (len_nonzero ct Hne)). simpl.
    intros [= <-]. simpl. repeat split; reflexivity.
Qed.

Lemma _calculate_statistics_Ok (self : BacktestEngine) (trades : list Trade.t)
    (final_capital : Q) :
  0 < initial_capital self ->
  exists report, _calculate_statistics self trades final_capital = Ok report.
Proof.
  intros Hic. unfold _calculate_statistics.
  destruct (is_empty trades); [eauto|].
  set (ct := List.filter Trade.has_exit_date trades).
  destruct (is_empty ct) eqn:E; [eauto|].
  assert (Hne : ct <> []) by (intros H; rewrite H in E; discriminate).
  rewrite (div_Ok _ _ (len_nonzero ct Hne)). simpl.
  assert (P : exists pf,
    (if negb (Qeq_bool (gross_loss ct) 0)
     then let* r := div (gross_profit ct) (gross_loss ct) in Ok (Finite r)
     else Ok inf) = Ok pf).
  { destruct (Qeq_bool (gross_loss ct) 0) eqn:G; simpl; [eauto|].
    apply Qeq_bool_false in G. rewrite (div_Ok _ _ G). simpl. eauto. }
  destruct P as [pf ->]. simpl.
  assert (D : exists d, _calculate_max_drawdown self ct = Ok d).
  { unfold _calculate_max_drawdown. destruct ct; [eauto|].
    destruct (drawdown_walk_spec
                (equity_curve (initial_capital self) (t :: ct))
                0 (initial_capital self) Hic (Qle_refl 0)) as (d & -> & _).
    eauto. }
  destruct D as [d ->]. simpl.
  rewrite (div_Ok _ _ (len_nonzero ct Hne)). simpl.
  destruct (days_in_trade_Ok ct (filter_has_exit_date trades)) as [ds ->]. simpl.
  rewrite (div_Ok _ _ (len_nonzero ct Hne)). simpl. eauto.
Qed.





(** ** Sizing at an entry *)

(** The size of an honoured entry is what the strategy computes from the
    close price and its own attributes; the capital of the loop is not an
    argument of it. *)
Lemma entry_size_ignores_capital (strategy : BaseStrategy.t) (st1 st2 st1' st2' : Locals)
    (row : Row) :
  Signal row == 1 -> position st1 == 0 -> position st2 == 0 ->
  loop_body strategy st1 row = Ok st1' ->
  loop_body strategy st2 row = Ok st2' ->
  BaseStrategy.get_position_size strategy (Close row) = Ok (position st1') /\
  position st2' = position st1'.
Proof.
  intros HS H1 H2. unfold loop_body.
  apply Qeq_bool_true in HS, H1, H2. rewrite HS, H1, H2. simpl.
  destruct (BaseStrategy.get_position_size strategy (Close row)) as [size|];
    simpl; [|discriminate].
  intros [= <-] [= <-]. simpl. split; reflexivity.
Qed.

(** ** Ledgers in which every entry has a size *)

Lemma sized_entries (l l' : list Trade.t) :
  map entry_of l' = map entry_of l -> sized l -> sized l'.
Proof.
  unfold sized. revert l'. induction l as [|t l IH]; intros [|t' l'] E H;
    try discriminate; [constructor|].
  injection E as E1 E2 E3 E. apply Forall_cons in H as [Ht H].
  constructor; [now rewrite E3 | now apply IH].
Qed.

Lemma iteration_sized (strategy : BaseStrategy.t) (st st' : Locals) (row : Row) :
  (forall size, BaseStrategy.get_position_size strategy (Close row) = Ok size ->
     ~ size == 0) ->
  iteration strategy st row st' -> sized (trades st) -> sized (trades st').
Proof.
  intros Hsz It H. destruct It as [size HS HP HG | trades' HS HP HU | _ _].
  - simpl. apply Forall_app. split; [exact H|].
    constructor; [|constructor]. simpl. now apply Hsz.
  - simpl. eapply sized_entries; [|exact H].
    eapply update_last_entries; [|exact HU]. reflexivity.
  - exact H.
Qed.

Lemma for_rows_sized (strategy : BaseStrategy.t) (df : list Row) :
  Forall (fun row => forall size,
            BaseStrategy.get_position_size strategy (Close row) = Ok size ->
            ~ size == 0) df ->
  forall st st', for_rows strategy st df = Ok st' ->
    sized (trades st) -> sized (trades st').
Proof.
  induction 1 as [|row rest Hrow _ IH]; intros st st'; simpl.
  - now intros [= <-].
  - destruct (loop_body strategy st row) as [st1|] eqn:B; simpl; [|discriminate].
    intros F H. apply (IH st1 st' F).
    apply (iteration_sized strategy st st1 row Hrow); [|exact H].
    now apply loop_body_iteration.
Qed.

(** When the strategy never sizes an entry at 0, every trade of the
    returned ledger is closed. *)
Lemma simulate_all_closed (self : BacktestEngine) (strategy : BaseStrategy.t)
    (df : list Row) (st : Locals) :
  Forall (fun row => forall size,
            BaseStrategy.get_position_size strategy (Close row) = Ok size ->
            ~ size == 0) df ->
  simulate self strategy df = Ok st ->
  Forall closed (trades st).
Proof.
  intros Hsz HS.
  destruct (simulate_finished self strategy df st HS) as [_ HF].
  assert (Z : sized (trades st)).
  { revert HS. unfold simulate.
    destruct (for_rows strategy _ df) as [st1|] eqn:F; simpl; [|discriminate].
    assert (H1 : sized (trades st1)).
    { eapply for_rows_sized; [exact Hsz | exact F |]. constructor. }
    unfold close_open_position.
    destruct (negb (Qeq_bool (position st1) 0)); [|now intros [= <-]].
    destruct (last df); [|discriminate].
    destruct (update_last _ (trades st1)) as [trades'|] eqn:U; simpl; [|discriminate].
    intros [= <-]. simpl. eapply sized_entries; [|exact H1].
    eapply update_last_entries; [|exact U]. reflexivity. }
  unfold sized in Z. rewrite Forall_forall in HF, Z. apply Forall_forall.
  intros t Hin. destruct (HF t Hin) as [H | [_ H]]; [exact H|].
  now destruct (Z t Hin).
Qed.

(** C1 (evaluation).  An entry sized at 0 is appended to the ledger and is
    never closed: neither the exit signal nor the end of the frame closes
    it, and the ledger that [run_backtest] stores and hands out holds a
    trade without exit date and exit price. *)
Theorem zero_size_trade_left_open :
  exists st t self' report,
    simulate (init 1000) zero_size_strategy short_frame = Ok st /\
    trades st = [t] /\
    Trade.exit_date t = None /\ Trade.exit_price t = None /\
    run_backtest (init 1000) [] short_frame zero_size_strategy "AAPL"
      = Ok (self', report) /\
    get_trade_details self' "AAPL" "RSIStrategy" = [t].
Proof.
  do 4 eexists. split; [vm_compute; reflexivity|].
  split; [reflexivity|]. split; [reflexivity|]. split; [reflexivity|].
  split; [vm_compute; reflexivity | reflexivity].
Qed.

(** C3 (evaluation).  After the first round trip the capital of the loop
    is 1100, but the second entry, at 110, is sized on the strategy's own
    capital, still 1000: its position is 1000 / 110 and not 1100 / 110. *)
Theorem second_entry_sized_on_stale_capital :
  exists st1 st t1 t2,
    for_rows default_strategy (start 1000) (take 2 two_trips_frame) = Ok st1 /\
    capital st1 == 1100 /\
    simulate (init 1000) default_strategy two_trips_frame = Ok st /\
    trades st = [t1; t2] /\
    Trade.entry_price t2 = 110 /\
    Trade.position t2 == 1000 / 110 /\
    ~ Trade.position t2 == 1100 / 110.
Proof.
  do 4 eexists. split; [vm_compute; reflexivity|].
  split; [reflexivity|].
  split; [vm_compute; reflexivity|].
  split; [reflexivity|]. split; [reflexivity|].
  split; [reflexivity | discriminate].
Qed.

(** ** Inputs that are not checked *)

(** C2 (counterexample).  [run_backtest] returns a report, and raises
    nothing, on an empty frame, on a frame run with an initial capital of
    0, and on a frame run with a negative initial capital. *)
Lemma unchecked_inputs_return_a_report :
  (exists self',
     run_backtest (init 1000) [] [] default_strategy "AAPL" = Ok (self', zero_report)) /\
  (exists self' report,
     initial_capital (init 0) <= 0 /\
     run_backtest (init 0) [] short_frame ten_shares_strategy "AAPL"
       = Ok (self', report) /\
     total_trades report = 1%nat) /\
  (exists self' report,
     initial_capital (init (-1000)) <= 0 /\
     run_backtest (init (-1000)) [] losing_frame
       (BaseStrategy.init "RSIStrategy" (-1000)) "AAPL" = Ok (self', report) /\
     total_trades report = 1%nat).
Proof.
  split; [|split].
  - eexists. reflexivity.
  - do 2 eexists. split; [discriminate|].
    split; [vm_compute; reflexivity | reflexivity].
  - do 2 eexists. split; [discriminate|].
    split; [vm_compute; reflexivity | reflexivity].
Qed.

(** C2 (amended).  [run_backtest] checks none of its inputs.  On an empty
    frame it stores an empty ledger and returns the zero report, whatever
    the initial capital; and whatever the initial capital, the simulation
    of a frame whose close prices are not zero ends without an exception. *)
Theorem run_backtest_validates_nothing
    (self : BacktestEngine) (data : list Bar) (strategy : BaseStrategy.t)
    (ticker : string) :
  run_backtest self data [] strategy ticker =
    Ok ({| initial_capital := initial_capital self;
           trade_details :=
             <[(ticker, BaseStrategy.class_name strategy) := []]> (trade_details self);
           price_data := <[ticker := data]> (price_data self) |},
        zero_report) /\
  (forall df, priced df -> exists st, simulate self strategy df = Ok st).
Proof.
  split; [reflexivity|]. intros df. apply simulate_Ok.
Qed.

Lemma run_backtest_validates_nothing_witness :
  priced losing_frame /\
  exists st, simulate (init 0) default_strategy losing_frame = Ok st.
Proof.
  assert (P : priced losing_frame) by (repeat constructor; discriminate).
  split; [exact P|].
  exact (proj2 (run_backtest_validates_nothing (init 0) [] default_strategy "AAPL")
           losing_frame P).
Defined.

(** ** Witnesses *)

Lemma profit_exact_and_added_to_capital_witness :
  priced never_exit_frame /\
  exists st, simulate (init 1000) default_strategy never_exit_frame = Ok st /\
    capital st = realized 1000 (trades st) /\
    capital st == 1200 /\
    Forall finished (trades st).
Proof.
  assert (P : priced never_exit_frame) by (repeat constructor; discriminate).
  split; [exact P|].
  destruct (profit_exact_and_added_to_capital (init 1000) default_strategy
              never_exit_frame) as (H1 & _ & _ & H4).
  destruct (H4 P) as [st HS]. exists st. split; [exact HS|].
  destruct (H1 st HS) as (HF & _ & HC).
  split; [exact HC|]. split; [|exact HF].
  vm_compute in HS. injection HS as <-. reflexivity.
Defined.

Lemma enter_honoured_only_when_flat_witness :
  let st := {| position := 10; capital := 1000;
               trades := [Trade.opened (row_at 0 100 1) 10];
               entry_price := 100 |} in
  ~ position st == 0 /\ Signal (row_at 1 105 1) == 1 /\
  loop_body default_strategy st (row_at 1 105 1) = Ok st.
Proof.
  intros st.
  assert (HP : ~ position st == 0) by discriminate.
  assert (HS : Signal (row_at 1 105 1) == 1) by reflexivity.
  split; [exact HP|]. split; [exact HS|].
  exact (proj1 (proj1 (enter_honoured_only_when_flat default_strategy)
                  st (row_at 1 105 1)) HP HS).
Defined.

Lemma no_enter_no_trades_witness :
  Forall (fun row => ~ Signal row == 1) hold_frame /\
  exists self',
    run_backtest (init 1000) [] hold_frame default_strategy "AAPL" =
      Ok (self', zero_report).
Proof.
  assert (H : Forall (fun row => ~ Signal row == 1) hold_frame)
    by (repeat constructor; discriminate).
  split; [exact H|]. eexists.
  exact (proj2 (no_enter_no_trades (init 1000) [] hold_frame default_strategy "AAPL" H)).
Defined.


Lemma no_closed_trades_zero_report_witness :
  let ledger := [Trade.opened (row_at 0 100 1) 0] in
  List.filter Trade.has_exit_date ledger = [] /\
  _calculate_statistics (init 1000) ledger 1000 = Ok zero_report.
Proof.
  intros ledger.
  assert (H : List.filter Trade.has_exit_date ledger = []) by reflexivity.
  split; [exact H|].
  exact (proj1 (no_closed_trades_zero_report ledger H (init 1000) (init 1000) 1000 1000)).
Defined.

Lemma max_drawdown_spec_witness :
  0 < initial_capital (init 1000) /\
  exists d, _calculate_max_drawdown (init 1000) swing_ledger = Ok d /\
    0 <= d /\ ~ d == 0.
Proof.
  assert (H : 0 < initial_capital (init 1000)) by reflexivity.
  split; [exact H|].
  destruct (max_drawdown_spec (init 1000) swing_ledger H)
    as (_ & d & Hd & _ & _ & Hle & _).
  exists d. split; [exact Hd|]. split; [exact Hle|].
  vm_compute in Hd. injection Hd as <-. discriminate.
Defined.

(** The drawdown of the swing ledger is (1100 - 900) / 1100 * 100. *)
Example swing_ledger_drawdown :
  equity_curve 1000 swing_ledger = [1000 + 0; 1000 + 0 + 100; 1000 + 0 + 100 + -200;
                                    1000 + 0 + 100 + -200 + 300]%Q /\
  exists d, _calculate_max_drawdown (init 1000) swing_ledger = Ok d /\
    d == (1100 - 900) / 1100 * 100.
Proof.
  split; [reflexivity|]. eexists. split; [vm_compute; reflexivity | reflexivity].
Qed.



(** ** What a report says about the ledger *)

Lemma filter_filter {A : Type} (f : A -> bool) (l : list A) :
  List.filter f (List.filter f l) = List.filter f l.
Proof.
  induction l as [|x l IH]; simpl; [reflexivity|].
  destruct (f x) eqn:E; simpl; [rewrite E, IH|]; auto.
Qed.

Lemma _calculate_statistics_no_closed (self : BacktestEngine) (trades : list Trade.t)
    (final_capital : Q) :
  List.filter Trade.has_exit_date trades = [] ->
  _calculate_statistics self trades final_capital = Ok zero_report.
Proof.
  intros H. unfold _calculate_statistics.
  destruct (is_empty trades); [reflexivity|]. now rewrite H.
Qed.

(** X11. Open trades do not count: the report of a ledger is the report of its
    closed trades. *)
Theorem report_ignores_open_trades (self : BacktestEngine) (trades : list Trade.t)
    (final_capital : Q) :
  _calculate_statistics self trades final_capital =
  _calculate_statistics self (List.filter Trade.has_exit_date trades) final_capital.
Proof.
  destruct (List.filter Trade.has_exit_date trades) as [|t ct] eqn:E.
  - now rewrite _calculate_statistics_no_closed.
  - unfold _calculate_statistics. rewrite <- E, filter_filter, E.
    destruct trades; [discriminate E | reflexivity].
Qed.

Lemma _calculate_statistics_averages (self : BacktestEngine) (trades : list Trade.t)
    (final_capital : Q) (report : Report) :
  let closed_trades := List.filter Trade.has_exit_date trades in
  closed_trades <> [] ->
  _calculate_statistics self trades final_capital = Ok report ->
  avg_trade report = (final_capital - initial_capital self) / len closed_trades /\
  exists ds, days_in_trade closed_trades = Ok ds /\
    avg_bars_in_trade report =
      inject_Z (fold_left Z.add ds 0%Z) / len closed_trades.
Proof.
  intros ct Hne. unfold _calculate_statistics. fold ct.
  destruct (is_empty trades) eqn:Et.
  { destruct trades; [|discriminate]. now destruct Hne. }
  rewrite (is_empty_false ct Hne).
  rewrite (div_Ok _ _ (len_nonzero ct Hne)). simpl.
  destruct (if negb (Qeq_bool (gross_loss ct) 0)
            then let* r := div (gross_profit ct) (gross_loss ct) in Ok (Finite r)
            else Ok inf) as [pf|]; simpl; [|discriminate].
  destruct (_calculate_max_drawdown self ct) as [d|]; simpl; [|discriminate].
  rewrite (div_Ok _ _ (len_nonzero ct Hne)). simpl.
  destruct (days_in_trade ct) as [ds|]; simpl; [|discriminate].
  rewrite (div_Ok _ _ (len_nonzero ct Hne)). simpl.
  intros [= <-]. simpl. split; [reflexivity|]. exists ds. now split.
Qed.

(** What [run_backtest] hands to [_calculate_statistics]. *)
Lemma run_backtest_report (self self' : BacktestEngine) (data : list Bar)
    (df : list Row) (strategy : BaseStrategy.t) (ticker : string) (report : Report) :
  run_backtest self data df strategy ticker = Ok (self', report) ->
  exists st, simulate self strategy df = Ok st /\
    get_trade_details self' ticker (BaseStrategy.class_name strategy) = trades st /\
    initial_capital self' = initial_capital self /\
    _calculate_statistics self' (trades st) (capital st) = Ok report /\
    capital st ==
      initial_capital self +
      py_sum (map Trade.profit (List.filter Trade.has_exit_date (trades st))).
Proof.
  intros R. destruct (run_backtest_inv _ _ _ _ _ _ _ R) as (st & HS & E & HC).
  exists st. split; [exact HS|].
  destruct (simulate_finished self strategy df st HS) as [HB HF].
  subst self'. unfold get_trade_details. simpl. rewrite lookup_insert_eq. simpl.
  repeat split; try assumption.
  unfold balanced in HB. now rewrite finished_profits.
Qed.

(** X12. The report of a run can be recomputed from the ledger the run
    stores: it is the report of that ledger with, as final capital, the
    initial capital to which the profits of the closed trades are added
    in ledger order.  Its number of trades is the number of closed trades
    of the ledger and, when there is one, its net profit is that final
    capital minus the initial capital and its average trade the net
    profit divided by the number of closed trades. *)
Theorem report_accounts_for_ledger (self self' : BacktestEngine) (data : list Bar)
    (df : list Row) (strategy : BaseStrategy.t) (ticker : string) (report : Report) :
  run_backtest self data df strategy ticker = Ok (self', report) ->
  let ledger := get_trade_details self' ticker (BaseStrategy.class_name strategy) in
  let closed_trades := List.filter Trade.has_exit_date ledger in
  let final_capital := realized (initial_capital self) ledger in
  _calculate_statistics self' ledger final_capital = Ok report /\
  total_trades report = length closed_trades /\
  (closed_trades <> [] ->
   net_profit report = final_capital - initial_capital self /\
   avg_trade report = net_profit report / len closed_trades).
Proof.
  intros R ledger ct fc.
  destruct (run_backtest_report _ _ _ _ _ _ _ R) as (st & HS & EL & EI & HC & _).
  assert (HR := simulate_realized self strategy df st HS).
  unfold fc, ct, ledger. clear fc ct ledger. rewrite EL, <- HR.
  split; [exact HC|].
  destruct (List.filter Trade.has_exit_date (trades st)) as [|t ct] eqn:E.
  - rewrite _calculate_statistics_no_closed in HC by exact E.
    injection HC as <-. split; [reflexivity | intros H; now destruct H].
  - assert (Hne : List.filter Trade.has_exit_date (trades st) <> [])
      by (rewrite E; discriminate).
    destruct (_calculate_statistics_inv _ _ _ _ Hne HC) as (Hn & Ht & _).
    destruct (_calculate_statistics_averages _ _ _ _ Hne HC) as (Ha & _).
    rewrite E in Ht, Ha. rewrite EI in Hn, Ha.
    split; [exact Ht|]. intros _. split; [exact Hn|]. now rewrite Ha, Hn.
Qed.

Lemma len_le {A B : Type} (l : list A) (k : list B) :
  (length l <= length k)%nat <-> len l <= len k.
Proof.
  unfold len. rewrite <- Zle_Qle. lia.
Qed.

Lemma len_eq {A B : Type} (l : list A) (k : list B) :
  length l = length k <-> len l == len k.
Proof.
  unfold len. rewrite inject_Z_injective. lia.
Qed.

Lemma len_nonneg {A : Type} (l : list A) : 0 <= len l.
Proof. unfold len. change 0 with (inject_Z 0). rewrite <- Zle_Qle. lia. Qed.

Lemma ratio_bounds (a b : Q) :
  0 <= a -> a <= b -> 0 < b ->
  0 <= a / b * 100 /\ a / b * 100 <= 100 /\
  (a / b * 100 == 100 <-> a == b) /\ (a / b * 100 == 0 <-> a == 0).
Proof.
  intros Ha Hab Hb.
  assert (E : a == a / b * b) by (field; lra).
  assert (R0 : 0 <= a / b).
  { apply Qmult_le_0_compat; [exact Ha|].
    apply Qlt_le_weak. now apply Qinv_lt_0_compat. }
  assert (R1 : a / b <= 1) by (apply Qle_shift_div_r; lra).
  revert E R0 R1. generalize (a / b). intros r E R0 R1.
  split; [lra|]. split; [lra|]. split; split; intros H.
  - assert (H1 : r == 1) by lra. rewrite H1 in E. lra.
  - assert (H1 : (r - 1) * b == 0) by lra.
    apply Qmult_integral in H1 as [H1|H1]; lra.
  - assert (H1 : r == 0) by lra. rewrite H1 in E. lra.
  - assert (H1 : r * b == 0) by lra.
    apply Qmult_integral in H1 as [H1|H1]; lra.
Qed.

Lemma filter_all {A : Type} (f : A -> bool) (l : list A) :
  length (List.filter f l) = length l <-> List.filter f l = l.
Proof.
  split; [|now intros ->].
  induction l as [|x l IH]; simpl; [reflexivity|].
  assert (L := List.filter_length_le f l).
  destruct (f x); simpl; intros H; [f_equal; apply IH|]; lia.
Qed.

(** X13. The win rate of a report lies between 0 and 100.  With at least
    one closed trade it is 100 exactly when every closed trade is a
    winning one (profit > 0), and 0 exactly when none is. *)
Theorem win_rate_bounds (self : BacktestEngine) (trades : list Trade.t)
    (final_capital : Q) (report : Report) :
  _calculate_statistics self trades final_capital = Ok report ->
  let closed_trades := List.filter Trade.has_exit_date trades in
  0 <= win_rate report /\ win_rate report <= 100 /\
  (closed_trades <> [] ->
   (win_rate report == 100 <-> winning closed_trades = closed_trades) /\
   (win_rate report == 0 <-> winning closed_trades = [])).
Proof.
  intros HC ct.
  destruct ct as [|t0 ct0] eqn:E.
  - rewrite _calculate_statistics_no_closed in HC by exact E.
    injection HC as <-. simpl. split; [apply Qle_refl|].
    split; [discriminate | intros H; now destruct H].
  - assert (Hne : List.filter Trade.has_exit_date trades <> [])
      by (fold ct; rewrite E; discriminate).
    destruct (_calculate_statistics_inv _ _ _ _ Hne HC) as (_ & _ & Hw & _).
    fold ct in Hw. rewrite E in Hw. rewrite Hw.
    set (l := t0 :: ct0) in *.
    assert (Hl : l <> []) by discriminate. clearbody l.
    assert (Hb : 0 < len l).
    { destruct (Qle_lt_or_eq _ _ (len_nonneg l)) as [H|H]; [exact H|].
      exfalso. apply (len_nonzero l); [exact Hl | now symmetry]. }
    assert (Hwl : len (winning l) <= len l)
      by (apply len_le; apply List.filter_length_le).
    destruct (ratio_bounds (len (winning l)) (len l) (len_nonneg _) Hwl Hb)
      as (B0 & B1 & B100 & Bz).
    split; [exact B0|]. split; [exact B1|].
    intros _. rewrite B100, Bz, <- len_eq.
    change 0 with (len (@nil Trade.t)). rewrite <- len_eq.
    split; [apply filter_all|]. split; intros H.
    + destruct (winning l); [reflexivity | discriminate].
    + now rewrite H.
Qed.

(** ** More on drawdown *)

Lemma drawdown_le_100 (p e : Q) : 0 < p -> (p - e) / p * 100 <= 100 <-> 0 <= e.
Proof.
  intros Hp.
  assert (E : p - e == (p - e) / p * p) by (field; lra).
  revert E. generalize ((p - e) / p). intros r E. split; intros H.
  - assert (R : r <= 1) by lra.
    assert (r * p <= 1 * p) by (apply Qmult_le_compat_r; lra). lra.
  - assert (R : r <= 1).
    { apply Qnot_lt_le. intros C.
      assert (1 * p < r * p) by (apply Qmult_lt_compat_r; lra). lra. }
    lra.
Qed.

Lemma drawdown_samples_le_100 (curve : list Q) :
  forall p, 0 < p ->
    Forall (fun x => x <= 100) (drawdown_samples p curve) <->
    Forall (fun e => 0 <= e) curve.
Proof.
  induction curve as [|e rest IH]; intros p Hp; simpl.
  - split; constructor.
  - assert (Hp' : 0 < Qmax p e).
    { apply Qlt_le_trans with p; [exact Hp | apply Q.le_max_l]. }
    rewrite !Forall_cons, (IH _ Hp'), (drawdown_le_100 _ _ Hp'). tauto.
Qed.

Lemma non_decreasing_profits (trades : list Trade.t) :
  forall c, non_decreasing_from c (equity_curve c trades) <->
            Forall (fun t => 0 <= Trade.profit t) trades.
Proof.
  induction trades as [|t rest IH]; intros c; simpl.
  - split; [constructor | tauto].
  - rewrite Forall_cons, IH. split; intros [H1 H2]; (split; [lra | exact H2]).
Qed.

Lemma _calculate_max_drawdown_walk (self : BacktestEngine) (trades : list Trade.t) :
  0 < initial_capital self ->
  let curve := equity_curve (initial_capital self) trades in
  exists d, _calculate_max_drawdown self trades = Ok d /\
    0 <= d /\
    (forall x, x ∈ drawdown_samples (initial_capital self) curve -> x <= d) /\
    (d = 0 \/ d ∈ drawdown_samples (initial_capital self) curve) /\
    (d == 0 <-> non_decreasing_from (initial_capital self) curve).
Proof.
  intros Hic curve. unfold _calculate_max_drawdown.
  destruct (drawdown_walk_spec curve 0 (initial_capital self) Hic (Qle_refl 0))
    as (d & Hd & Hle & Hub & Hin & Hz).
  destruct trades as [|t rest].
  - exists 0. split; [reflexivity|]. split; [apply Qle_refl|].
    split; [intros x Hx; inversion Hx|]. split; [now left|].
    simpl. split; [tauto | reflexivity].
  - exists d. split; [exact Hd|]. split; [exact Hle|]. split; [exact Hub|].
    split; [exact Hin|]. rewrite Hz. split; [tauto|]. split; [reflexivity | assumption].
Qed.

(** X16. With a positive initial capital, when no point of the equity
    curve is negative the maximum drawdown is at most 100. *)
Theorem max_drawdown_at_most_100 (self : BacktestEngine) (trades : list Trade.t) :
  0 < initial_capital self ->
  Forall (fun e => 0 <= e) (equity_curve (initial_capital self) trades) ->
  exists d, _calculate_max_drawdown self trades = Ok d /\ d <= 100.
Proof.
  intros Hic HE.
  destruct (_calculate_max_drawdown_walk self trades Hic) as (d & Hd & _ & _ & Hin & _).
  exists d. split; [exact Hd|].
  apply (drawdown_samples_le_100 _ _ Hic) in HE. rewrite Forall_forall in HE.
  destruct Hin as [-> | Hin]; [discriminate | now apply HE].
Qed.

(** X17. With a positive initial capital, when no trade has a negative
    profit the maximum drawdown is 0. *)
Theorem no_loss_no_drawdown (self : BacktestEngine) (trades : list Trade.t) :
  0 < initial_capital self ->
  Forall (fun t => 0 <= Trade.profit t) trades ->
  exists d, _calculate_max_drawdown self trades = Ok d /\ d == 0.
Proof.
  intros Hic HP.
  destruct (_calculate_max_drawdown_walk self trades Hic) as (d & Hd & _ & _ & _ & Hz).
  exists d. split; [exact Hd|]. apply Hz. now apply non_decreasing_profits.
Qed.

(** ** Position sizing *)

Lemma div_antitone (x p p' r r' : Q) :
  0 <= x -> 0 < p -> p <= p' ->
  div x p = Ok r -> div x p' = Ok r' -> 0 <= r' /\ r' <= r.
Proof.
  intros Hx Hp Hpp. rewrite !div_Ok by lra. intros [= <-] [= <-].
  assert (E : x == x / p * p) by (field; lra).
  assert (E' : x == x / p' * p') by (field; lra).
  assert (R' : 0 <= x / p').
  { apply Qmult_le_0_compat; [exact Hx|].
    apply Qlt_le_weak, Qinv_lt_0_compat. lra. }
  revert E E' R'. generalize (x / p) (x / p'). intros a b E E' R'.
  split; [exact R'|].
  apply Qnot_lt_le. intros C.
  assert (H1 : a * p < b * p) by (apply Qmult_lt_compat_r; assumption).
  assert (H2 : b * p <= b * p').
  { rewrite (Qmult_comm b p), (Qmult_comm b p').
    apply Qmult_le_compat_r; assumption. }
  lra.
Qed.

(** X10. Contract and share sizing return the size value whatever the
    price.  At a positive price, with a capital and a size value that are
    not negative, [get_position_size] returns a size that is not negative,
    and the size it returns at a higher price is never larger. *)
Theorem get_position_size_falls_with_price (self : BaseStrategy.t) (price : Q) :
  match BaseStrategy.position_sizing_method self with
  | CONTRACT_SIZE | SHARES =>
      BaseStrategy.get_position_size self price
      = Ok (BaseStrategy.position_size_value self)
  | EQUITY_PERCENT | DOLLAR_AMOUNT => True
  end /\
  (0 < price -> 0 <= BaseStrategy.capital self ->
   0 <= BaseStrategy.position_size_value self ->
   exists size, BaseStrategy.get_position_size self price = Ok size /\
     0 <= size /\
     forall price' size',
       price <= price' ->
       BaseStrategy.get_position_size self price' = Ok size' ->
       0 <= size' /\ size' <= size).
Proof.
  unfold BaseStrategy.get_position_size. split.
  - destruct (BaseStrategy.position_sizing_method self); exact I || reflexivity.
  - intros Hp Hc Hv.
    assert (Hx : 0 <= BaseStrategy.capital self * BaseStrategy.position_size_value self / 100).
    { apply Qle_shift_div_l; [reflexivity|]. rewrite Qmult_0_l.
      now apply Qmult_le_0_compat. }
    destruct (BaseStrategy.position_sizing_method self).
    + exists (BaseStrategy.position_size_value self). split; [reflexivity|].
      split; [exact Hv|]. intros p' s' _ [= <-]. split; [exact Hv | apply Qle_refl].
    + rewrite div_Ok by discriminate. simpl. rewrite (div_Ok _ price) by lra.
      eexists. split; [reflexivity|]. split.
      * apply Qle_shift_div_l; [exact Hp | now rewrite Qmult_0_l].
      * intros p' s' Hpp E.
        apply (div_antitone _ price p' _ s' Hx Hp Hpp); [|exact E].
        apply div_Ok. lra.
    + exists (BaseStrategy.position_size_value self). split; [reflexivity|].
      split; [exact Hv|]. intros p' s' _ [= <-]. split; [exact Hv | apply Qle_refl].
    + rewrite (div_Ok _ price) by lra.
      eexists. split; [reflexivity|]. split.
      * apply Qle_shift_div_l; [exact Hp | now rewrite Qmult_0_l].
      * intros p' s' Hpp E.
        apply (div_antitone _ price p' _ s' Hv Hp Hpp); [|exact E].
        apply div_Ok. lra.
Qed.

Lemma get_position_size_falls_with_price_witness :
  0 < 50 /\ 0 <= BaseStrategy.capital default_strategy /\
  0 <= BaseStrategy.position_size_value default_strategy /\
  exists size, BaseStrategy.get_position_size default_strategy 50 = Ok size /\
    0 <= size.
Proof.
  assert (H : 0 < 50) by reflexivity.
  assert (Hc : 0 <= BaseStrategy.capital default_strategy) by discriminate.
  assert (Hv : 0 <= BaseStrategy.position_size_value default_strategy) by discriminate.
  split; [exact H|]. split; [exact Hc|]. split; [exact Hv|].
  destruct (proj2 (get_position_size_falls_with_price default_strategy 50) H Hc Hv)
    as (size & E & B & _).
  exists size. now split.
Defined.

(** ** Where the trades of a ledger come from *)

Lemma update_last_Ok_inv (f : Trade.t -> Trade.t) (l l' : list Trade.t) :
  update_last f l = Ok l' -> exists k t, l = k ++ [t] /\ l' = k ++ [f t].
Proof.
  intros H. destruct (last l) as [t|] eqn:L.
  - apply last_Some in L as [k ->]. exists k, t. split; [reflexivity|].
    rewrite update_last_snoc in H. now injection H as <-.
  - apply last_None in L. subst l. discriminate H.
Qed.

Lemma iteration_from_frame (strategy : BaseStrategy.t) (df : list Row)
    (st st' : Locals) (row : Row) :
  row ∈ df ->
  iteration strategy st row st' ->
  Forall (from_frame strategy df) (trades st) ->
  Forall (from_frame strategy df) (trades st').
Proof.
  intros Hin It H. destruct It as [size HS HP HG | trades' HS HP HU | _ _].
  - simpl. apply Forall_app. split; [exact H|]. constructor; [|constructor].
    split.
    + exists row. simpl. now repeat split.
    + now left.
  - simpl. apply update_last_Ok_inv in HU as (k & t & E & ->).
    rewrite E in H. apply Forall_app in H as [Hk Ht].
    apply Forall_app. split; [exact Hk|]. constructor; [|constructor].
    apply Forall_inv in Ht. destruct Ht as [He _]. split; [exact He|].
    right. exists row. simpl. now repeat split.
  - exact H.
Qed.

Lemma for_rows_from_frame (strategy : BaseStrategy.t) (df : list Row) :
  forall rest st st',
    (forall row, row ∈ rest -> row ∈ df) ->
    for_rows strategy st rest = Ok st' ->
    Forall (from_frame strategy df) (trades st) ->
    Forall (from_frame strategy df) (trades st').
Proof.
  induction rest as [|row rest IH]; intros st st' Hsub; simpl.
  - now intros [= <-].
  - destruct (loop_body strategy st row) as [st1|] eqn:B; simpl; [|discriminate].
    intros F H. apply (IH st1 st'); [|exact F|].
    + intros r Hr. apply Hsub. now apply list_elem_of_further.
    + apply (iteration_from_frame strategy df st st1 row);
        [apply Hsub, list_elem_of_here | now apply loop_body_iteration | exact H].
Qed.

Lemma close_open_position_from_frame (strategy : BaseStrategy.t) (df : list Row)
    (st st' : Locals) :
  close_open_position df st = Ok st' ->
  Forall (from_frame strategy df) (trades st) ->
  Forall (from_frame strategy df) (trades st').
Proof.
  unfold close_open_position. intros C H1. revert C.
  destruct (negb (Qeq_bool (position st) 0)); [|now intros [= <-]].
  destruct (last df) as [last_row|] eqn:L; [|discriminate].
  destruct (update_last _ (trades st)) as [trades'|] eqn:U; simpl; [|discriminate].
  intros [= <-]. simpl.
  apply update_last_Ok_inv in U as (k & t & E & ->).
  rewrite E in H1. apply Forall_app in H1 as [Hk Ht].
  apply Forall_app. split; [exact Hk|]. constructor; [|constructor].
  apply Forall_inv in Ht. destruct Ht as [He _]. split; [exact He|].
  right. exists last_row. simpl. split; [|now repeat split].
  apply last_Some in L as [k' ->]. apply elem_of_app. right. apply list_elem_of_here.
Qed.

(** X5. Every trade of the returned ledger was entered at a row of the frame
    with signal 1: its entry date and entry price are the index and the
    close of that row, and its position is what the strategy sizes at that
    close.  A trade with exit fields was closed at the index and close of
    a row of the frame. *)
Theorem trades_come_from_the_frame (self : BacktestEngine) (strategy : BaseStrategy.t)
    (df : list Row) (st : Locals) :
  simulate self strategy df = Ok st ->
  Forall (from_frame strategy df) (trades st).
Proof.
  unfold simulate.
  destruct (for_rows strategy _ df) as [st1|] eqn:F; simpl; [|discriminate].
  intros C. apply (close_open_position_from_frame strategy df st1 st C).
  eapply (for_rows_from_frame strategy df df); [auto | exact F | constructor].
Qed.

(** ** The end of the frame *)

(** X4. When the loop ends with position 0 nothing more happens.  When it ends
    with another position, the last trade of the ledger, still without
    exit fields, is closed at the index and close of the last row, and the
    profit computed from the trade's entry price and position is added to
    the capital; the other trades are not touched. *)
Theorem open_position_closed_at_last_row (self : BacktestEngine)
    (strategy : BaseStrategy.t) (df : list Row) (st1 : Locals) :
  for_rows strategy (start (initial_capital self)) df = Ok st1 ->
  (position st1 == 0 -> simulate self strategy df = Ok st1) /\
  (~ position st1 == 0 ->
   exists l t last_row,
     last df = Some last_row /\ trades st1 = l ++ [t] /\
     Trade.exit_date t = None /\
     let trade_profit := (Close last_row - Trade.entry_price t) * Trade.position t in
     simulate self strategy df =
       Ok {| position := position st1;
             capital := capital st1 + trade_profit;
             trades := l ++ [Trade.update last_row (Close last_row) trade_profit t];
             entry_price := entry_price st1 |}).
Proof.
  intros F.
  assert (HI : Inv (initial_capital self) st1)
    by (eapply for_rows_Inv; [apply Inv_start | exact F]).
  unfold simulate. fold (start (initial_capital self)). rewrite F. simpl.
  unfold close_open_position. split; intros HP.
  - apply Qeq_bool_true in HP. now rewrite HP.
  - destruct (Inv_open_last _ st1 HI HP) as (l & t & E & _ & (Hd & _) & Hp & He).
    apply Qeq_bool_false in HP. rewrite HP. simpl.
    destruct df as [|row rest].
    { simpl in F. injection F as <-. destruct l; discriminate. }
    destruct (last (row :: rest)) as [last_row|] eqn:L;
      [|apply last_None in L; discriminate].
    exists l, t, last_row. split; [reflexivity|]. split; [exact E|].
    split; [exact Hd|]. simpl. rewrite E, update_last_snoc. simpl.
    now rewrite Hp, He.
Qed.

(** ** Bars added at the end *)

Lemma for_rows_app (strategy : BaseStrategy.t) (df1 df2 : list Row) :
  forall st, for_rows strategy st (df1 ++ df2) =
             let* st1 := for_rows strategy st df1 in for_rows strategy st1 df2.
Proof.
  induction df1 as [|row rest IH]; intros st; simpl; [reflexivity|].
  destruct (loop_body strategy st row) as [st'|]; simpl; [apply IH | reflexivity].
Qed.

Lemma prefix_snoc_strict {A : Type} (l k : list A) (x : A) :
  l `prefix_of` k ++ [x] -> (length l <= length k)%nat -> l `prefix_of` k.
Proof.
  intros [r E] H. destruct (last r) as [y|] eqn:L.
  - apply last_Some in L as [r' ->]. rewrite app_assoc in E.
    apply app_inj_tail in E as [-> _]. now exists r'.
  - apply last_None in L. subst r. rewrite app_nil_r in E. subst l.
    rewrite length_app in H. simpl in H. lia.
Qed.

Lemma update_last_settled (f : Trade.t -> Trade.t) (l trades trades' : list Trade.t) :
  update_last f trades = Ok trades' ->
  settled_prefix l trades -> settled_prefix l trades'.
Proof.
  intros U [HP HL]. apply update_last_Ok_inv in U as (k & t & -> & ->).
  rewrite length_app in HL. simpl in HL.
  split; [|rewrite length_app; simpl; lia].
  apply prefix_app_r. apply (prefix_snoc_strict l k t HP). lia.
Qed.

Lemma iteration_settled (strategy : BaseStrategy.t) (l : list Trade.t)
    (st st' : Locals) (row : Row) :
  iteration strategy st row st' ->
  settled_prefix l (trades st) -> settled_prefix l (trades st').
Proof.
  intros It H. destruct It as [size HS HP HG | trades' HS HP HU | _ _].
  - destruct H as [HP' HL]. simpl. split; [now apply prefix_app_r|].
    rewrite length_app. simpl. lia.
  - simpl. eapply update_last_settled; [exact HU | exact H].
  - exact H.
Qed.

Lemma for_rows_settled (strategy : BaseStrategy.t) (l : list Trade.t) (df : list Row) :
  forall st st', for_rows strategy st df = Ok st' ->
    settled_prefix l (trades st) -> settled_prefix l (trades st').
Proof.
  induction df as [|row rest IH]; intros st st'; simpl.
  - now intros [= <-].
  - destruct (loop_body strategy st row) as [st1|] eqn:B; simpl; [|discriminate].
    intros F H. apply (IH st1 st' F).
    apply (iteration_settled strategy l st st1 row); [|exact H].
    now apply loop_body_iteration.
Qed.

Lemma close_open_position_settled (l : list Trade.t) (df : list Row) (st st' : Locals) :
  close_open_position df st = Ok st' ->
  settled_prefix l (trades st) -> settled_prefix l (trades st').
Proof.
  unfold close_open_position.
  destruct (negb (Qeq_bool (position st) 0)); [|now intros [= <-]].
  destruct (last df); [|discriminate].
  destruct (update_last _ (trades st)) as [trades'|] eqn:U; simpl; [|discriminate].
  intros [= <-]. simpl. now apply (update_last_settled _ _ _ _ U).
Qed.

Lemma close_open_position_last (df : list Row) (st st' : Locals) (l : list Trade.t)
    (t : Trade.t) :
  close_open_position df st = Ok st' -> trades st' = l ++ [t] ->
  exists t0, trades st = l ++ [t0].
Proof.
  unfold close_open_position.
  destruct (negb (Qeq_bool (position st) 0)); [|intros [= <-]; eauto].
  destruct (last df); [|discriminate].
  destruct (update_last _ (trades st)) as [trades'|] eqn:U; simpl; [|discriminate].
  intros [= <-]. simpl. intros E.
  apply update_last_Ok_inv in U as (k & t0 & -> & ->).
  apply app_inj_tail in E as [-> _]. eauto.
Qed.

(** X8. Running the simulation on a frame with more rows at the end leaves
    every trade but the last of the shorter run as it is: the longer ledger
    starts with them. *)
Theorem earlier_trades_are_final (self : BacktestEngine) (strategy : BaseStrategy.t)
    (df1 df2 : list Row) (st1 st2 : Locals) (l : list Trade.t) (t : Trade.t) :
  simulate self strategy df1 = Ok st1 ->
  simulate self strategy (df1 ++ df2) = Ok st2 ->
  trades st1 = l ++ [t] ->
  l `prefix_of` trades st2 /\ (length (trades st1) <= length (trades st2))%nat.
Proof.
  unfold simulate. rewrite for_rows_app.
  destruct (for_rows strategy _ df1) as [s1|] eqn:F1; simpl; [|discriminate].
  destruct (for_rows strategy s1 df2) as [s2|] eqn:F2; simpl; [|discriminate].
  intros C1 C2 E.
  destruct (close_open_position_last _ _ _ _ _ C1 E) as [t0 E0].
  assert (H1 : settled_prefix l (trades s1)).
  { rewrite E0. split; [now apply prefix_app_r|]. rewrite length_app. simpl. lia. }
  assert (H2 : settled_prefix l (trades st2)).
  { eapply close_open_position_settled; [exact C2|].
    eapply for_rows_settled; [exact F2 | exact H1]. }
  destruct H2 as [HP HL]. split; [exact HP|].
  rewrite E, length_app. simpl. lia.
Qed.

(** ** Counting entries *)

Lemma iteration_length (strategy : BaseStrategy.t) (st st' : Locals) (row : Row) :
  iteration strategy st row st' ->
  (length (trades st) <= length (trades st'))%nat /\
  (length (trades st') <=
   length (trades st) + enter_signals [row])%nat.
Proof.
  unfold enter_signals. simpl.
  destruct 1 as [size HS HP HG | trades' HS HP HU | _ _]; simpl.
  - apply Qeq_bool_true in HS. rewrite HS, length_app. simpl. lia.
  - apply update_last_Ok_inv in HU as (k & t & -> & ->).
    rewrite !length_app. simpl. lia.
  - lia.
Qed.

Lemma enter_signals_cons (row : Row) (rest : list Row) :
  enter_signals (row :: rest) = (enter_signals [row] + enter_signals rest)%nat.
Proof.
  unfold enter_signals. simpl. destruct (Qeq_bool (Signal row) 1); reflexivity.
Qed.

Lemma for_rows_length (strategy : BaseStrategy.t) (df : list Row) :
  forall st st', for_rows strategy st df = Ok st' ->
    (length (trades st) <= length (trades st'))%nat /\
    (length (trades st') <= length (trades st) + enter_signals df)%nat.
Proof.
  induction df as [|row rest IH]; intros st st'; simpl.
  - intros [= <-]. unfold enter_signals. simpl. lia.
  - destruct (loop_body strategy st row) as [st1|] eqn:B; simpl; [|discriminate].
    intros F. apply IH in F. apply loop_body_iteration, iteration_length in B.
    rewrite enter_signals_cons. lia.
Qed.

Lemma close_open_position_length (df : list Row) (st st' : Locals) :
  close_open_position df st = Ok st' -> length (trades st') = length (trades st).
Proof.
  unfold close_open_position.
  destruct (negb (Qeq_bool (position st) 0)); [|now intros [= <-]].
  destruct (last df); [|discriminate].
  destruct (update_last _ (trades st)) as [trades'|] eqn:U; simpl; [|discriminate].
  intros [= <-]. simpl. apply update_last_Ok_inv in U as (k & t & -> & ->).
  now rewrite !length_app.
Qed.

(** X7. The ledger never holds more trades than the frame has rows with
    signal 1. *)
Theorem trades_at_most_enter_signals (self : BacktestEngine)
    (strategy : BaseStrategy.t) (df : list Row) (st : Locals) :
  simulate self strategy df = Ok st ->
  (length (trades st) <= enter_signals df)%nat.
Proof.
  unfold simulate.
  destruct (for_rows strategy _ df) as [st1|] eqn:F; simpl; [|discriminate].
  intros C. apply close_open_position_length in C. apply for_rows_length in F.
  simpl in F. lia.
Qed.

Lemma for_rows_first_enter (strategy : BaseStrategy.t) (df : list Row) :
  forall st st',
    position st == 0 ->
    Exists (fun row => Signal row == 1) df ->
    for_rows strategy st df = Ok st' ->
    trades st' <> [].
Proof.
  induction df as [|row rest IH]; intros st st' HP HE; [inversion HE|].
  simpl. destruct (loop_body strategy st row) as [st1|] eqn:B; simpl; [|discriminate].
  intros F. destruct (Qeq_bool (Signal row) 1) eqn:S1.
  - apply for_rows_length in F as [F _].
    revert B. unfold loop_body. apply Qeq_bool_true in HP. rewrite S1, HP. simpl.
    destruct (BaseStrategy.get_position_size strategy (Close row)); simpl;
      [|discriminate].
    intros [= <-]. simpl in F. rewrite length_app in F. simpl in F.
    destruct (trades st'); [simpl in F; lia | discriminate].
  - assert (E : st1 = st).
    { revert B. unfold loop_body. apply Qeq_bool_true in HP.
      rewrite S1, HP, andb_false_r. simpl. congruence. }
    subst st1. apply (IH st st' HP); [|exact F].
    apply Exists_cons in HE as [HE|HE]; [|exact HE].
    apply Qeq_bool_true in HE. congruence.
Qed.

(** X19. After a run that returned, [has_trades] answers true for the run's key
    exactly when the frame has a row with signal 1. *)
Theorem has_trades_iff_enter_signal (self self' : BacktestEngine) (data : list Bar)
    (df : list Row) (strategy : BaseStrategy.t) (ticker : string) (report : Report) :
  run_backtest self data df strategy ticker = Ok (self', report) ->
  has_trades self' ticker (BaseStrategy.class_name strategy) = true <->
  Exists (fun row => Signal row == 1) df.
Proof.
  intros R. destruct (run_backtest_report _ _ _ _ _ _ _ R) as (st & HS & EL & _).
  unfold has_trades. fold (get_trade_details self' ticker (BaseStrategy.class_name strategy)).
  rewrite EL. split.
  - intros H.
    assert (L : (length (trades st) <= enter_signals df)%nat).
    { revert HS. unfold simulate.
      destruct (for_rows strategy _ df) as [st1|] eqn:F; simpl; [|discriminate].
      intros C. apply close_open_position_length in C. apply for_rows_length in F.
      simpl in F. lia. }
    destruct (trades st) as [|t l]; [discriminate|]. simpl in L.
    unfold enter_signals in L.
    destruct (List.filter (fun row => Qeq_bool (Signal row) 1) df) as [|row k] eqn:E;
      [simpl in L; lia|].
    assert (Hin : List.In row (List.filter (fun row => Qeq_bool (Signal row) 1) df))
      by (rewrite E; now left).
    apply List.filter_In in Hin as [Hin Hs].
    apply Exists_exists. exists row. split; [now apply list_elem_of_In|].
    now apply Qeq_bool_true.
  - intros HE. revert HS. unfold simulate.
    destruct (for_rows strategy _ df) as [st1|] eqn:F; simpl; [|discriminate].
    intros C. apply close_open_position_length in C.
    apply for_rows_first_enter in F; [|reflexivity | exact HE].
    destruct (trades st); [|reflexivity].
    destruct (trades st1); [now destruct F | discriminate].
Qed.

(** ** Chronology *)

Lemma timeline_app (l k : list Trade.t) : timeline (l ++ k) = timeline l ++ timeline k.
Proof.
  induction l as [|t l IH]; simpl; [reflexivity|]. now rewrite IH, app_assoc.
Qed.

Lemma ascending_snoc (l : list Z) (x : Z) :
  ascending l -> Forall (fun y => (y <= x)%Z) l -> ascending (l ++ [x]).
Proof.
  induction l as [|y l IH]; simpl; intros H F.
  - split; constructor.
  - destruct H as [H1 H2]. apply Forall_cons in F as [F1 F2]. split.
    + apply Forall_app. split; [exact H1|]. constructor; [exact F1 | constructor].
    + now apply IH.
Qed.

Lemma ascending_last (l : list Z) (x : Z) :
  ascending (l ++ [x]) -> Forall (fun y => (y <= x)%Z) l.
Proof.
  induction l as [|y l IH]; simpl; intros H; [constructor|].
  destruct H as [H1 H2]. constructor; [|now apply IH].
  apply Forall_app in H1 as [_ H1]. now apply Forall_inv in H1.
Qed.

Lemma timeline_update (row : Row) (x p : Q) (l : list Trade.t) (t : Trade.t) :
  Trade.exit_date t = None ->
  timeline (l ++ [Trade.update row x p t]) = timeline (l ++ [t]) ++ [index row].
Proof.
  intros H. rewrite !timeline_app. simpl. unfold dates_of. simpl. rewrite H.
  simpl. now rewrite <- !app_assoc.
Qed.

Lemma iteration_timeline (strategy : BaseStrategy.t) (ic : Q) (hi : Z)
    (st st' : Locals) (row : Row) (rest : list Row) :
  Inv ic st ->
  (index row <= hi)%Z ->
  Forall (fun r => (index row <= index r)%Z) rest ->
  iteration strategy st row st' ->
  ascending (timeline (trades st)) ->
  Forall (fun d => (d <= hi)%Z /\ Forall (fun r => (d <= index r)%Z) (row :: rest))
    (timeline (trades st)) ->
  ascending (timeline (trades st')) /\
  Forall (fun d => (d <= hi)%Z /\ Forall (fun r => (d <= index r)%Z) rest)
    (timeline (trades st')).
Proof.
  intros HI Hhi Hrest It HA HB.
  assert (HB1 : Forall (fun d => (d <= index row)%Z) (timeline (trades st))).
  { eapply Forall_impl; [exact HB|]. intros d [_ H]. now apply Forall_inv in H. }
  assert (HB2 : Forall (fun d => (d <= hi)%Z /\ Forall (fun r => (d <= index r)%Z) rest)
                  (timeline (trades st))).
  { eapply Forall_impl; [exact HB|]. intros d [H1 H2]. split; [exact H1|].
    now apply Forall_cons in H2 as [_ H2]. }
  assert (New : forall tl, tl = timeline (trades st) ++ [index row] ->
            ascending tl /\
            Forall (fun d => (d <= hi)%Z /\ Forall (fun r => (d <= index r)%Z) rest) tl).
  { intros tl ->. split; [now apply ascending_snoc|].
    apply Forall_app. split; [exact HB2|]. constructor; [|constructor]. now split. }
  destruct It as [size HS HP HG | trades' HS HP HU | _ _]; simpl.
  - apply New. rewrite timeline_app. reflexivity.
  - destruct (Inv_open_last ic st HI HP) as (l & t & E & _ & (Hd & _) & _).
    rewrite E, update_last_snoc in HU. injection HU as <-.
    apply New. rewrite E. now apply timeline_update.
  - now split.
Qed.

Lemma for_rows_timeline (strategy : BaseStrategy.t) (ic : Q) (hi : Z) (rest : list Row) :
  forall st st',
    Inv ic st ->
    ascending (map index rest) ->
    Forall (fun r => (index r <= hi)%Z) rest ->
    for_rows strategy st rest = Ok st' ->
    ascending (timeline (trades st)) ->
    Forall (fun d => (d <= hi)%Z /\ Forall (fun r => (d <= index r)%Z) rest)
      (timeline (trades st)) ->
    ascending (timeline (trades st')) /\
    Forall (fun d => (d <= hi)%Z) (timeline (trades st')).
Proof.
  induction rest as [|row rest IH]; intros st st' HI HS Hhi; simpl.
  - intros [= <-] HA HB. split; [exact HA|].
    eapply Forall_impl; [exact HB|]. now intros d [H _].
  - destruct (loop_body strategy st row) as [st1|] eqn:B; simpl; [|discriminate].
    intros F HA HB. simpl in HS. destruct HS as [HS1 HS2].
    apply Forall_cons in Hhi as [Hr Hhi].
    apply loop_body_iteration in B.
    assert (HS1' : Forall (fun r => (index row <= index r)%Z) rest).
    { clear -HS1. induction rest as [|r rest IH]; [constructor|].
      simpl in HS1. apply Forall_cons in HS1 as [H1 H2].
      constructor; [exact H1 | now apply IH]. }
    destruct (iteration_timeline strategy ic hi st st1 row rest HI Hr HS1' B HA HB)
      as [HA1 HB1].
    apply (IH st1 st'); try assumption.
    now apply (iteration_Inv strategy ic st st1 row).
Qed.

Lemma simulate_timeline (self : BacktestEngine) (strategy : BaseStrategy.t)
    (df : list Row) (st : Locals) :
  ascending (map index df) ->
  simulate self strategy df = Ok st ->
  ascending (timeline (trades st)).
Proof.
  intros HS. unfold simulate. fold (start (initial_capital self)).
  destruct (for_rows strategy _ df) as [st1|] eqn:F; simpl; [|discriminate].
  assert (HI : Inv (initial_capital self) st1)
    by (eapply for_rows_Inv; [apply Inv_start | exact F]).
  destruct (last df) as [last_row|] eqn:L.
  - assert (L' := L). apply last_Some in L' as [k Ek].
    assert (Hhi : Forall (fun r => (index r <= index last_row)%Z) df).
    { rewrite Ek in HS |- *. rewrite List.map_app in HS. simpl in HS.
      apply ascending_last in HS. apply Forall_app. split.
      - clear -HS. induction k as [|r k IH]; [constructor|].
        simpl in HS. apply Forall_cons in HS as [H1 H2].
        constructor; [exact H1 | now apply IH].
      - constructor; [lia | constructor]. }
    destruct (for_rows_timeline strategy _ (index last_row) df _ _
                (Inv_start (initial_capital self)) HS Hhi F I (List.Forall_nil _))
      as [HA HB].
    unfold close_open_position.
    destruct (Qeq_bool (position st1) 0) eqn:P0; simpl; [now intros [= <-]|].
    apply Qeq_bool_false in P0.
    destruct (Inv_open_last _ st1 HI P0) as (l & t & E & _ & (Hd & _) & _).
    rewrite L, E, update_last_snoc. simpl. intros [= <-]. simpl.
    rewrite (timeline_update _ _ _ _ _ Hd), <- E. now apply ascending_snoc.
  - apply last_None in L. subst df. simpl in F. injection F as <-.
    simpl. intros [= <-]. exact I.
Qed.

Lemma timeline_entry_exit (l : list Trade.t) (t : Trade.t) (d : Z) :
  ascending (timeline l) -> t ∈ l -> Trade.exit_date t = Some d ->
  (Trade.entry_date t <= d)%Z.
Proof.
  induction l as [|t0 l IH]; intros HA Hin Hd; [inversion Hin|].
  apply elem_of_cons in Hin as [<- | Hin].
  - simpl in HA. unfold dates_of in HA. rewrite Hd in HA. simpl in HA.
    destruct HA as [HA _]. now apply Forall_inv in HA.
  - apply IH; try assumption. simpl in HA. unfold dates_of in HA.
    destruct (Trade.exit_date t0); simpl in HA; tauto.
Qed.

(** X6. On a frame whose index never decreases the dates of the ledger, read
    trade after trade (entry date, then exit date), never decrease: no
    trade is closed before it is entered, and no trade is entered before
    the one before it is closed. *)
Theorem ledger_is_chronological (self : BacktestEngine) (strategy : BaseStrategy.t)
    (df : list Row) (st : Locals) :
  ascending (map index df) ->
  simulate self strategy df = Ok st ->
  ascending (timeline (trades st)) /\
  (forall t d, t ∈ trades st -> Trade.exit_date t = Some d ->
     (Trade.entry_date t <= d)%Z).
Proof.
  intros HS H. assert (HA := simulate_timeline self strategy df st HS H).
  split; [exact HA|]. intros t d. now apply timeline_entry_exit.
Qed.

Lemma days_in_trade_nonneg (l : list Trade.t) :
  (forall t d, t ∈ l -> Trade.exit_date t = Some d -> (Trade.entry_date t <= d)%Z) ->
  forall ds, days_in_trade l = Ok ds -> Forall (fun d => (0 <= d)%Z) ds.
Proof.
  induction l as [|t l IH]; intros H ds; simpl.
  - intros [= <-]. constructor.
  - destruct (Trade.exit_date t) as [d|] eqn:E; [|discriminate].
    destruct (days_in_trade l) as [ds'|]; simpl; [|discriminate].
    intros [= <-]. constructor.
    + unfold days. apply Z.div_pos; [|lia].
      assert (Trade.entry_date t <= d)%Z by (apply H; [apply list_elem_of_here | exact E]).
      lia.
    + apply IH; [|reflexivity]. intros t' d' Hin. apply H.
      now apply list_elem_of_further.
Qed.

Lemma fold_left_Zadd_nonneg (ds : list Z) :
  Forall (fun d => (0 <= d)%Z) ds ->
  forall a, (0 <= a)%Z -> (0 <= fold_left Z.add ds a)%Z.
Proof.
  induction 1 as [|d ds Hd _ IH]; intros a Ha; simpl; [exact Ha|].
  apply IH. lia.
Qed.

(** X15. On a frame whose index never decreases, the average time in a trade
    that a run reports is not negative. *)
Theorem avg_bars_in_trade_nonneg (self self' : BacktestEngine) (data : list Bar)
    (df : list Row) (strategy : BaseStrategy.t) (ticker : string) (report : Report) :
  ascending (map index df) ->
  run_backtest self data df strategy ticker = Ok (self', report) ->
  0 <= avg_bars_in_trade report.
Proof.
  intros HS R.
  destruct (run_backtest_report _ _ _ _ _ _ _ R) as (st & Hsim & _ & _ & HC & _).
  destruct (List.filter Trade.has_exit_date (trades st)) as [|t0 ct0] eqn:E.
  - rewrite _calculate_statistics_no_closed in HC by exact E.
    injection HC as <-. apply Qle_refl.
  - assert (Hne : List.filter Trade.has_exit_date (trades st) <> [])
      by (rewrite E; discriminate).
    destruct (_calculate_statistics_averages _ _ _ _ Hne HC) as (_ & ds & Hds & ->).
    assert (HA := simulate_timeline self strategy df st HS Hsim).
    assert (Hnn : Forall (fun d => (0 <= d)%Z) ds).
    { apply (days_in_trade_nonneg (List.filter Trade.has_exit_date (trades st)));
        [|exact Hds].
      intros t d Hin Hd. apply (timeline_entry_exit (trades st)); try assumption.
      apply list_elem_of_In in Hin. apply List.filter_In in Hin as [Hin _].
      now apply list_elem_of_In. }
    assert (Hb : 0 < len (List.filter Trade.has_exit_date (trades st))).
    { destruct (Qle_lt_or_eq _ _ (len_nonneg (List.filter Trade.has_exit_date (trades st))))
        as [H|H]; [exact H|].
      exfalso. apply (len_nonzero _ Hne). now symmetry. }
    apply Qle_shift_div_l; [exact Hb|]. rewrite Qmult_0_l.
    change 0 with (inject_Z 0). rewrite <- Zle_Qle.
    apply fold_left_Zadd_nonneg; [exact Hnn | lia].
Qed.

(** ** Exceptions *)

(** X1. With a positive initial capital, on a frame whose close prices are
    not zero and whose indexes lie close enough for their differences to
    fit a [Timedelta], [run_backtest] raises nothing: it returns a report
    and stores the ledger.  (The last condition is what the subtraction
    of two timestamps needs in the code; the model, whose timestamps are
    integers, subtracts without it.) *)
Theorem run_backtest_returns (self : BacktestEngine) (data : list Bar)
    (df : list Row) (strategy : BaseStrategy.t) (ticker : string) :
  0 < initial_capital self -> priced df -> index_fits_timedelta df ->
  exists self' report,
    run_backtest self data df strategy ticker = Ok (self', report).
Proof.
  intros Hic HP _. unfold run_backtest.
  change (simulate {| initial_capital := initial_capital self;
                      trade_details := trade_details self;
                      price_data := <[ticker := data]> (price_data self) |}
            strategy df)
    with (simulate self strategy df).
  destruct (simulate_Ok self strategy df HP) as [st ->]. simpl.
  match goal with |- context [_calculate_statistics ?s _ _] => set (self2 := s) end.
  destruct (_calculate_statistics_Ok self2 (trades st) (capital st) Hic) as [r ->].
  simpl. eauto.
Qed.









(** ** What the engine keeps between runs *)

(** X20. A new engine has no price data.  When [run_backtest] returns, the
    price frame it was given is stored under the ticker, the frames of
    the other tickers are as they were, and the engine's initial capital
    is unchanged. *)
Theorem price_data_lookup (self : BacktestEngine) (ticker : string) :
  (forall c, get_price_data (init c) ticker = None) /\
  (forall data df strategy self' report,
     run_backtest self data df strategy ticker = Ok (self', report) ->
     get_price_data self' ticker = Some data /\
     initial_capital self' = initial_capital self /\
     forall ticker', ticker' <> ticker ->
       get_price_data self' ticker' = get_price_data self ticker').
Proof.
  split.
  - intros c. unfold get_price_data. simpl. apply lookup_empty.
  - intros data df strategy self' report R.
    destruct (run_backtest_inv _ _ _ _ _ _ _ R) as (st & _ & -> & _).
    unfold get_price_data. simpl. split; [apply lookup_insert_eq|].
    split; [reflexivity|]. intros ticker' Hne. now apply lookup_insert_ne.
Qed.

Lemma simulate_initial_capital (self self0 : BacktestEngine)
    (strategy : BaseStrategy.t) (df : list Row) :
  initial_capital self0 = initial_capital self ->
  simulate self0 strategy df = simulate self strategy df.
Proof. intros H. unfold simulate. now rewrite H. Qed.

Lemma _calculate_statistics_initial_capital (self self0 : BacktestEngine)
    (trades : list Trade.t) (final_capital : Q) :
  initial_capital self0 = initial_capital self ->
  _calculate_statistics self0 trades final_capital =
  _calculate_statistics self trades final_capital.
Proof.
  intros H. unfold _calculate_statistics, _calculate_max_drawdown. now rewrite H.
Qed.

(** X21. Runs on one engine do not influence each other: the report and the
    ledger of a run are those a new engine with the same initial capital
    gives, whatever was run before, and a later run under another key
    leaves the stored ledger of an earlier run as it is. *)
Theorem runs_are_independent (self self1 self2 : BacktestEngine)
    (data1 data2 : list Bar) (df1 df2 : list Row)
    (strategy1 strategy2 : BaseStrategy.t) (ticker1 ticker2 : string)
    (report1 report2 : Report) :
  run_backtest self data1 df1 strategy1 ticker1 = Ok (self1, report1) ->
  run_backtest self1 data2 df2 strategy2 ticker2 = Ok (self2, report2) ->
  (exists fresh,
     run_backtest (init (initial_capital self)) data2 df2 strategy2 ticker2
       = Ok (fresh, report2) /\
     get_trade_details fresh ticker2 (BaseStrategy.class_name strategy2) =
     get_trade_details self2 ticker2 (BaseStrategy.class_name strategy2)) /\
  ((ticker1, BaseStrategy.class_name strategy1) <>
   (ticker2, BaseStrategy.class_name strategy2) ->
   get_trade_details self2 ticker1 (BaseStrategy.class_name strategy1) =
   get_trade_details self1 ticker1 (BaseStrategy.class_name strategy1)).
Proof.
  intros R1 R2.
  destruct (run_backtest_inv _ _ _ _ _ _ _ R1) as (st1 & _ & E1 & _).
  assert (I1 : initial_capital self1 = initial_capital self) by now subst self1.
  destruct (run_backtest_inv _ _ _ _ _ _ _ R2) as (st2 & S2 & E2 & C2).
  split.
  - set (fresh0 := init (initial_capital self)).
    assert (I0 : initial_capital fresh0 = initial_capital self1) by now rewrite I1.
    eexists. split.
    + unfold run_backtest.
      match goal with |- context [simulate ?s strategy2 df2] =>
        rewrite (simulate_initial_capital self1 s strategy2 df2 I0) end.
      rewrite S2. simpl.
      match goal with |- context [_calculate_statistics ?s _ _] =>
        rewrite (_calculate_statistics_initial_capital self2 s (trades st2) (capital st2))
      end.
      * rewrite C2. simpl. reflexivity.
      * subst self2. simpl. now rewrite I1.
    + subst self2. unfold get_trade_details. simpl.
      now rewrite !lookup_insert_eq.
  - intros Hne. subst self2. unfold get_trade_details. simpl.
    rewrite lookup_insert_ne; [reflexivity | congruence].
Qed.

Lemma report_accounts_for_ledger_witness :
  exists self' report,
    run_backtest (init 1000) [] losing_frame default_strategy "AAPL"
      = Ok (self', report) /\
    _calculate_statistics self' (get_trade_details self' "AAPL" "RSIStrategy")
      (realized 1000 (get_trade_details self' "AAPL" "RSIStrategy")) = Ok report.
Proof.
  destruct (run_backtest (init 1000) [] losing_frame default_strategy "AAPL")
    as [[s r]|e] eqn:R.
  - exists s, r. split; [reflexivity|].
    exact (proj1 (report_accounts_for_ledger _ _ _ _ _ _ _ R)).
  - vm_compute in R. discriminate R.
Defined.

Lemma win_rate_bounds_witness :
  exists report,
    _calculate_statistics (init 1000) swing_ledger 1200 = Ok report /\
    0 <= win_rate report /\ win_rate report <= 100.
Proof.
  destruct (_calculate_statistics (init 1000) swing_ledger 1200) as [r|e] eqn:C.
  - exists r. split; [reflexivity|].
    destruct (win_rate_bounds _ _ _ _ C) as (H0 & H1 & _). now split.
  - vm_compute in C. discriminate C.
Defined.

Lemma max_drawdown_at_most_100_witness :
  0 < initial_capital (init 1000) /\
  Forall (fun e => 0 <= e) (equity_curve (initial_capital (init 1000)) swing_ledger) /\
  exists d, _calculate_max_drawdown (init 1000) swing_ledger = Ok d /\ d <= 100.
Proof.
  assert (H : 0 < initial_capital (init 1000)) by reflexivity.
  assert (E : Forall (fun e => 0 <= e)
                (equity_curve (initial_capital (init 1000)) swing_ledger))
    by (repeat constructor; discriminate).
  split; [exact H|]. split; [exact E|].
  exact (max_drawdown_at_most_100 (init 1000) swing_ledger H E).
Defined.

Lemma no_loss_no_drawdown_witness :
  0 < initial_capital (init 1000) /\
  Forall (fun t => 0 <= Trade.profit t) [closed_trade 10 105; closed_trade 10 110] /\
  exists d,
    _calculate_max_drawdown (init 1000) [closed_trade 10 105; closed_trade 10 110]
      = Ok d /\ d == 0.
Proof.
  assert (H : 0 < initial_capital (init 1000)) by reflexivity.
  assert (P : Forall (fun t => 0 <= Trade.profit t)
                [closed_trade 10 105; closed_trade 10 110])
    by (repeat constructor; discriminate).
  split; [exact H|]. split; [exact P|].
  exact (no_loss_no_drawdown (init 1000) _ H P).
Defined.

Lemma trades_come_from_the_frame_witness :
  exists st,
    simulate (init 1000) default_strategy two_trips_frame = Ok st /\
    Forall (from_frame default_strategy two_trips_frame) (trades st).
Proof.
  destruct (simulate (init 1000) default_strategy two_trips_frame) as [st|e] eqn:S.
  - exists st. split; [reflexivity|].
    exact (trades_come_from_the_frame _ _ _ _ S).
  - vm_compute in S. discriminate S.
Defined.

Lemma open_position_closed_at_last_row_witness :
  exists st1,
    for_rows default_strategy (start (initial_capital (init 1000)))
      (take 3 two_trips_frame) = Ok st1 /\
    ~ position st1 == 0 /\
    exists st, simulate (init 1000) default_strategy (take 3 two_trips_frame) = Ok st.
Proof.
  destruct (for_rows default_strategy (start (initial_capital (init 1000)))
              (take 3 two_trips_frame)) as [st1|e] eqn:F;
    [|vm_compute in F; discriminate F].
  assert (E := F). vm_compute in E. injection E as E.
  exists st1. split; [reflexivity|].
  assert (HP : ~ position st1 == 0) by (rewrite <- E; discriminate).
  split; [exact HP|].
  destruct (proj2 (open_position_closed_at_last_row (init 1000) default_strategy
                     (take 3 two_trips_frame) st1 F) HP)
    as (l & t & last_row & _ & _ & _ & S).
  eexists. exact S.
Defined.

Lemma earlier_trades_are_final_witness :
  exists st1 st2 l t,
    simulate (init 1000) default_strategy two_trips_frame = Ok st1 /\
    simulate (init 1000) default_strategy (two_trips_frame ++ later_rows) = Ok st2 /\
    trades st1 = l ++ [t] /\
    l `prefix_of` trades st2.
Proof.
  destruct (simulate (init 1000) default_strategy two_trips_frame)
    as [st1|e] eqn:S1; [|vm_compute in S1; discriminate S1].
  destruct (simulate (init 1000) default_strategy (two_trips_frame ++ later_rows))
    as [st2|e] eqn:S2; [|vm_compute in S2; discriminate S2].
  assert (E := S1). vm_compute in E. injection E as E.
  assert (H : exists t1 t2, trades st1 = [t1] ++ [t2])
    by (rewrite <- E; eexists; eexists; reflexivity).
  destruct H as (t1 & t2 & H).
  exists st1, st2, [t1], t2. split; [reflexivity|]. split; [reflexivity|].
  split; [exact H|].
  exact (proj1 (earlier_trades_are_final _ _ _ _ st1 st2 [t1] t2 S1 S2 H)).
Defined.

Lemma trades_at_most_enter_signals_witness :
  exists st,
    simulate (init 1000) default_strategy two_trips_frame = Ok st /\
    (length (trades st) <= enter_signals two_trips_frame)%nat.
Proof.
  destruct (simulate (init 1000) default_strategy two_trips_frame) as [st|e] eqn:S.
  - exists st. split; [reflexivity|].
    exact (trades_at_most_enter_signals _ _ _ _ S).
  - vm_compute in S. discriminate S.
Defined.

Lemma has_trades_iff_enter_signal_witness :
  exists self' report,
    run_backtest (init 1000) [] hold_frame default_strategy "AAPL"
      = Ok (self', report) /\
    (has_trades self' "AAPL" "RSIStrategy" = true <->
     Exists (fun row => Signal row == 1) hold_frame).
Proof.
  destruct (run_backtest (init 1000) [] hold_frame default_strategy "AAPL")
    as [[s r]|e] eqn:R.
  - exists s, r. split; [reflexivity|].
    exact (has_trades_iff_enter_signal _ _ _ _ _ _ _ R).
  - vm_compute in R. discriminate R.
Defined.

Lemma ledger_is_chronological_witness :
  ascending (map index two_trips_frame) /\
  exists st,
    simulate (init 1000) default_strategy two_trips_frame = Ok st /\
    ascending (timeline (trades st)).
Proof.
  assert (H : ascending (map index two_trips_frame)).
  { simpl. repeat split; repeat constructor; discriminate. }
  split; [exact H|].
  destruct (simulate (init 1000) default_strategy two_trips_frame) as [st|e] eqn:S.
  - exists st. split; [reflexivity|].
    exact (proj1 (ledger_is_chronological _ _ _ _ H S)).
  - vm_compute in S. discriminate S.
Defined.

Lemma avg_bars_in_trade_nonneg_witness :
  ascending (map index two_trips_frame) /\
  exists self' report,
    run_backtest (init 1000) [] two_trips_frame default_strategy "AAPL"
      = Ok (self', report) /\
    0 <= avg_bars_in_trade report.
Proof.
  assert (H : ascending (map index two_trips_frame)).
  { simpl. repeat split; repeat constructor; discriminate. }
  split; [exact H|].
  destruct (run_backtest (init 1000) [] two_trips_frame default_strategy "AAPL")
    as [[s r]|e] eqn:R.
  - exists s, r. split; [reflexivity|].
    exact (avg_bars_in_trade_nonneg _ _ _ _ _ _ _ H R).
  - vm_compute in R. discriminate R.
Defined.

Lemma run_backtest_returns_witness :
  0 < initial_capital (init 1000) /\ priced two_trips_frame /\
  index_fits_timedelta two_trips_frame /\
  exists self' report,
    run_backtest (init 1000) [] two_trips_frame default_strategy "AAPL"
      = Ok (self', report).
Proof.
  assert (H : 0 < initial_capital (init 1000)) by reflexivity.
  assert (P : priced two_trips_frame) by (repeat constructor; discriminate).
  assert (T : index_fits_timedelta two_trips_frame).
  { intros a b Ha Hb. unfold two_trips_frame in Ha, Hb.
    repeat (apply elem_of_cons in Ha as [-> | Ha]);
      repeat (apply elem_of_cons in Hb as [-> | Hb]);
      try (now apply elem_of_nil in Ha); try (now apply elem_of_nil in Hb);
      discriminate. }
  split; [exact H|]. split; [exact P|]. split; [exact T|].
  exact (run_backtest_returns (init 1000) [] two_trips_frame default_strategy "AAPL"
           H P T).
Defined.

Lemma price_data_lookup_witness :
  exists self' report,
    run_backtest (init 1000) [] hold_frame default_strategy "AAPL"
      = Ok (self', report) /\
    get_price_data self' "AAPL" = Some [].
Proof.
  destruct (run_backtest (init 1000) [] hold_frame default_strategy "AAPL")
    as [[s r]|e] eqn:R.
  - exists s, r. split; [reflexivity|].
    exact (proj1 (proj2 (price_data_lookup (init 1000) "AAPL") _ _ _ _ _ R)).
  - vm_compute in R. discriminate R.
Defined.

Lemma runs_are_independent_witness :
  exists self1 report1 self2 report2 fresh,
    run_backtest (init 1000) [] losing_frame default_strategy "AAPL"
      = Ok (self1, report1) /\
    run_backtest self1 [] two_trips_frame default_strategy "MSFT"
      = Ok (self2, report2) /\
    run_backtest (init 1000) [] two_trips_frame default_strategy "MSFT"
      = Ok (fresh, report2).
Proof.
  destruct (run_backtest (init 1000) [] losing_frame default_strategy "AAPL")
    as [[s1 r1]|e] eqn:R1; [|vm_compute in R1; discriminate R1].
  destruct (run_backtest s1 [] two_trips_frame default_strategy "MSFT")
    as [[s2 r2]|e] eqn:R2.
  - destruct (proj1 (runs_are_independent _ _ _ _ _ _ _ _ _ _ _ _ _ R1 R2))
      as (fresh & RF & _).
    exists s1, r1, s2, r2, fresh. split; [reflexivity|]. split; [exact R2|].
    exact RF.
  - exfalso.
    assert (E := R1). vm_compute in E. injection E as E _. subst s1.
    vm_compute in R2. discriminate R2.
Defined.

(** ** Long positions *)

(** X9. When every size the strategy gives at a close of the frame is
    positive, every trade of the returned ledger holds a positive
    position and has an exit price; its profit is positive only if the
    exit price is above the entry price, and negative only if it is
    below. *)
Theorem long_trades_win_when_price_rises (self : BacktestEngine)
    (strategy : BaseStrategy.t) (df : list Row) (st : Locals) :
  Forall (fun row => forall size,
            BaseStrategy.get_position_size strategy (Close row) = Ok size ->
            0 < size) df ->
  simulate self strategy df = Ok st ->
  forall t, t ∈ trades st ->
    0 < Trade.position t /\
    exists x, Trade.exit_price t = Some x /\
      (0 < Trade.profit t -> Trade.entry_price t < x) /\
      (Trade.profit t < 0 -> x < Trade.entry_price t).
Proof.
  intros Hsz HS t Hin.
  assert (HF : Forall (from_frame strategy df) (trades st)).
  { revert HS. unfold simulate.
    destruct (for_rows strategy _ df) as [st1|] eqn:F; simpl; [|discriminate].
    intros C. apply (close_open_position_from_frame strategy df st1 st C).
    eapply (for_rows_from_frame strategy df df); [auto | exact F | constructor]. }
  destruct (simulate_finished self strategy df st HS) as [_ HD].
  assert (Hsz' := proj1 (Forall_forall _ _) Hsz).
  rewrite Forall_forall in HF. rewrite Forall_forall in HD.
  destruct (HF t Hin) as [(row & Hrow & _ & _ & _ & _ & HG) _].
  assert (Hpos : 0 < Trade.position t) by exact (Hsz' row Hrow _ HG).
  split; [exact Hpos|].
  destruct (HD t Hin) as [(d & x & m & _ & Hx & _ & Hprofit) | [_ Hz]].
  - exists x. split; [exact Hx|]. rewrite Hprofit.
    revert Hpos. generalize (Trade.position t) (Trade.entry_price t).
    intros q e Hq. split; intros H.
    + apply Qnot_le_lt. intros C.
      assert ((x - e) * q <= 0 * q) by (apply Qmult_le_compat_r; lra). lra.
    + apply Qnot_le_lt. intros C.
      assert (0 * q <= (x - e) * q) by (apply Qmult_le_compat_r; lra). lra.
  - rewrite Hz in Hpos. discriminate Hpos.
Qed.

(** ** Drawdown over a longer ledger *)

Lemma equity_curve_app (l k : list Trade.t) :
  forall c, exists c',
    equity_curve c (l ++ k) = equity_curve c l ++ equity_curve c' k.
Proof.
  induction l as [|t l IH]; intros c; simpl.
  - now exists c.
  - destruct (IH (c + Trade.profit t)) as [c' ->]. now exists c'.
Qed.

Lemma drawdown_samples_app (a b : list Q) :
  forall p, exists p',
    drawdown_samples p (a ++ b) = drawdown_samples p a ++ drawdown_samples p' b.
Proof.
  induction a as [|x a IH]; intros p; simpl.
  - now exists p.
  - destruct (IH (Qmax p x)) as [p' ->]. now exists p'.
Qed.

(** X18. With a positive initial capital, adding trades at the end of a ledger
    never lowers the maximum drawdown. *)
Theorem max_drawdown_grows_with_ledger (self : BacktestEngine)
    (trades more : list Trade.t) :
  0 < initial_capital self ->
  exists d1 d2,
    _calculate_max_drawdown self trades = Ok d1 /\
    _calculate_max_drawdown self (trades ++ more) = Ok d2 /\
    d1 <= d2.
Proof.
  intros Hic.
  destruct (_calculate_max_drawdown_walk self trades Hic) as (d1 & H1 & _ & _ & Hin & _).
  destruct (_calculate_max_drawdown_walk self (trades ++ more) Hic)
    as (d2 & H2 & Hnn & Hub & _).
  exists d1, d2. split; [exact H1|]. split; [exact H2|].
  destruct Hin as [-> | Hin]; [exact Hnn|].
  apply Hub.
  destruct (equity_curve_app trades more (initial_capital self)) as [c' ->].
  destruct (drawdown_samples_app (equity_curve (initial_capital self) trades)
              (equity_curve c' more) (initial_capital self)) as [p' ->].
  apply elem_of_app. now left.
Qed.

Lemma long_trades_win_when_price_rises_witness :
  Forall (fun row => forall size,
            BaseStrategy.get_position_size default_strategy (Close row) = Ok size ->
            0 < size) two_trips_frame /\
  exists st, simulate (init 1000) default_strategy two_trips_frame = Ok st /\
    forall t, t ∈ trades st -> 0 < Trade.position t.
Proof.
  assert (H : Forall (fun row => forall size,
                BaseStrategy.get_position_size default_strategy (Close row) = Ok size ->
                0 < size) two_trips_frame).
  { repeat constructor; intros size E; vm_compute in E; injection E as <-;
      reflexivity. }
  split; [exact H|].
  destruct (simulate (init 1000) default_strategy two_trips_frame) as [st|e] eqn:S.
  - exists st. split; [reflexivity|]. intros t Hin.
    exact (proj1 (long_trades_win_when_price_rises _ _ _ _ H S t Hin)).
  - vm_compute in S. discriminate S.
Defined.

Lemma max_drawdown_grows_with_ledger_witness :
  0 < initial_capital (init 1000) /\
  exists d1 d2,
    _calculate_max_drawdown (init 1000) (take 2 swing_ledger) = Ok d1 /\
    _calculate_max_drawdown (init 1000) (take 2 swing_ledger ++ drop 2 swing_ledger)
      = Ok d2 /\
    d1 <= d2.
Proof.
  assert (H : 0 < initial_capital (init 1000)) by reflexivity.
  split; [exact H|].
  exact (max_drawdown_grows_with_ledger (init 1000) (take 2 swing_ledger)
           (drop 2 swing_ledger) H).
Defined.

Lemma simulate_all_closed_witness :
  exists st,
    simulate (init 1000) default_strategy two_trips_frame = Ok st /\
    Forall closed (trades st).
Proof.
  assert (H : Forall (fun row => forall size,
                BaseStrategy.get_position_size default_strategy (Close row) = Ok size ->
                ~ size == 0) two_trips_frame).
  { repeat constructor; intros size E; vm_compute in E; injection E as <-;
      discriminate. }
  destruct (simulate (init 1000) default_strategy two_trips_frame) as [st|e] eqn:S.
  - exists st. split; [reflexivity|].
    exact (simulate_all_closed _ _ _ _ H S).
  - vm_compute in S. discriminate S.
Defined.
